(** * Aggregation pipeline of the bike-sharing dashboard

    A shallow embedding of the data-table code of
    [learn_data_analysis_with_python/dashboard/dashboard.py]: the five helper
    functions [create_*_df], the inline monthly aggregation and the
    year-over-year growth dictionary [pertumbuhan_tahunan].

    Modelling conventions.
    - Integer cells are [Z]; the sum of an integer column is taken in 64-bit
      arithmetic, which wraps around ([wrap64]).
    - Float cells are [Float.t]: an exact rational or one of the three special
      values of IEEE arithmetic.  This is the model for the statements on
      which rounding does not bear (which records are averaged, in which
      order, which value is missing); the sign of zero is not modelled.
    - Where rounding bears on a statement, the operations of [B64] round
      every result to a 53-bit significand as the doubles of the code do.
    - A [DataFrame] object is its list of raw records together with the
      columns that were added to it by item assignment [df[name] = ...],
      in assignment order.
    - A function of the source that receives the frame [df] is a computation
      of the monad [Py]: it threads the state of that one object and may end
      in an exception.  A [Store] holds the objects when the identity of a
      table matters. *)

From Stdlib Require Import ZArith QArith List String Bool Lia Sorted.
From Stdlib Require Import Permutation DecimalString.
From Stdlib Require Import Qround Qpower Qabs Lqa.
Import ListNotations.

Local Open Scope Z_scope.

(* ================================================================== *)
(** ** Float cells *)

Module Float.

Inductive t : Type :=
| Fin (q : Q)
| PInf
| NInf
| NaN.

Definition zero : t := Fin 0%Q.

Definition of_Z (z : Z) : t := Fin (inject_Z z).

Definition is_nan (a : t) : bool :=
  match a with NaN => true | _ => false end.

(** Sign of a rational, as a comparison with zero. *)
Definition sign (q : Q) : comparison := Z.compare (Qnum q) 0.

Definition opp (a : t) : t :=
  match a with
  | Fin q => Fin (Qred (- q))
  | PInf => NInf
  | NInf => PInf
  | NaN => NaN
  end.

Definition add (a b : t) : t :=
  match a, b with
  | NaN, _ | _, NaN => NaN
  | Fin x, Fin y => Fin (Qred (x + y))
  | PInf, NInf | NInf, PInf => NaN
  | PInf, _ | _, PInf => PInf
  | NInf, _ | _, NInf => NInf
  end.

Definition sub (a b : t) : t := add a (opp b).

(** An infinity scaled by a factor of the given sign. *)
Definition scale_inf (pos : bool) (s : comparison) : t :=
  match s with
  | Eq => NaN
  | Gt => if pos then PInf else NInf
  | Lt => if pos then NInf else PInf
  end.

Definition mul (a b : t) : t :=
  match a, b with
  | NaN, _ | _, NaN => NaN
  | Fin x, Fin y => Fin (Qred (x * y))
  | PInf, Fin y => scale_inf true (sign y)
  | NInf, Fin y => scale_inf false (sign y)
  | Fin x, PInf => scale_inf true (sign x)
  | Fin x, NInf => scale_inf false (sign x)
  | PInf, PInf | NInf, NInf => PInf
  | PInf, NInf | NInf, PInf => NInf
  end.

(** Division of the array library: a division by zero is not an exception,
    it yields an infinity of the sign of the numerator, or [NaN] for [0/0]. *)
Definition div (a b : t) : t :=
  match a, b with
  | NaN, _ | _, NaN => NaN
  | Fin x, Fin y =>
      match sign y with
      | Eq => scale_inf true (sign x)
      | _ => Fin (Qred (x / y))
      end
  | Fin _, (PInf | NInf) => zero
  | PInf, Fin y => match sign y with Lt => NInf | _ => PInf end
  | NInf, Fin y => match sign y with Lt => PInf | _ => NInf end
  | (PInf | NInf), (PInf | NInf) => NaN
  end.

(** [Series.mean()] with the default [skipna=True]: missing cells are
    dropped first; the mean of no cell at all is [NaN]. *)
Definition dropna (l : list t) : list t := filter (fun a => negb (is_nan a)) l.

Definition mean (l : list t) : t :=
  let v := dropna l in
  match v with
  | [] => NaN
  | _ :: _ => div (fold_left add v zero) (of_Z (Z.of_nat (List.length v)))
  end.

End Float.

(* ================================================================== *)
(** ** Binary64 rounding *)

(** The cells of [Float] above are exact rationals.  Where a statement
    depends on the rounding of the doubles that the table library computes,
    the operations below are used instead: each one is the exact operation
    followed by the rounding to the nearest number with a 53-bit
    significand, ties to even.  The exponent range is not bounded: the
    means of counts are far from the overflow and underflow thresholds. *)
Module B64.

(** [2^e] for any integer exponent. *)
Definition pow2 (e : Z) : Q := (2 ^ e)%Q.

(** The nearest integer, ties to the even one. *)
Definition nearest_even (y : Q) : Z :=
  let f := Qfloor y in
  match Qcompare (y - inject_Z f) (1 # 2) with
  | Lt => f
  | Gt => f + 1
  | Eq => if Z.even f then f else f + 1
  end.

(** The exponent of the last place of a positive rational in lowest terms:
    the [e] with [2^52 <= x / 2^e < 2^53]. *)
Definition ulp_exponent (x : Q) : Z :=
  let d := Z.log2 (Qnum x) - Z.log2 (Zpos (Qden x)) in
  if Qle_bool (pow2 d) x then d - 52 else d - 53.

Definition round_pos (x : Q) : Q :=
  let e := ulp_exponent x in
  (inject_Z (nearest_even (x / pow2 e)) * pow2 e)%Q.

Definition round53 (x : Q) : Q :=
  let r := Qred x in
  match Qcompare r 0 with
  | Eq => 0%Q
  | Gt => round_pos r
  | Lt => (- round_pos (- r))%Q
  end.

(** An integer cell converted to a double, and the sum and the quotient of
    two doubles. *)
Definition of_int (z : Z) : Q := round53 (inject_Z z).

Definition add (a b : Q) : Q := round53 (a + b).

Definition div (a b : Q) : Q := round53 (a / b).

Definition sum (l : list Q) : Q := fold_left add l 0%Q.

(** ['mean'] of an integer column over one group: the cells are converted
    and summed as doubles, and the sum is divided by the number of cells. *)
Definition mean_int (l : list Z) : Float.t :=
  match l with
  | [] => Float.NaN
  | _ :: _ =>
      Float.Fin (div (sum (map of_int l)) (of_int (Z.of_nat (List.length l))))
  end.

(** A cell of the exact model, rounded. *)
Definition round_cell (a : Float.t) : Float.t :=
  match a with
  | Float.Fin q => Float.Fin (round53 q)
  | other => other
  end.

End B64.

(* ================================================================== *)
(** ** Raw records and frames *)

Record Date : Type := mkDate { year : Z; month : Z; day : Z }.

(** A monthly period, [dt.to_period('M')]: calendar year and month. *)
Definition Period : Type := (Z * Z)%type.

Definition to_period (d : Date) : Period := (year d, month d).

(** [str] of a monthly period, e.g. ["2011-01"]. *)
Definition digits (z : Z) : string := NilZero.string_of_int (Z.to_int z).

Definition two_digits (z : Z) : string :=
  if z <? 10 then String.append "0" (digits z) else digits z.

Definition period_str (p : Period) : string :=
  String.append (digits (fst p)) (String.append "-" (two_digits (snd p))).

(** One row of [hour.csv] or [day.csv]; [hr] is only meaningful for the
    hourly table.  Field names are the column names of the data set. *)
Record Rental : Type := mkRental {
  dteday : Date;
  hr : Z;
  weekday : Z;
  mnth : Z;
  yr : Z;
  weathersit : Z;
  casual : Z;
  registered : Z;
  cnt : Z
}.

(** A column added to a frame by item assignment. *)
Inductive Column : Type :=
| FloatCol (l : list Float.t)
| PeriodCol (l : list Period).

Record DataFrame : Type := mkDataFrame {
  rows : list Rental;
  assigned : list (string * Column)
}.

(** [df[name] = col] on the added columns: an existing column is replaced in
    place, a new one is appended. *)
Fixpoint assign (name : string) (col : Column) (cs : list (string * Column))
  : list (string * Column) :=
  match cs with
  | [] => [(name, col)]
  | (n, c) :: rest =>
      if String.eqb n name then (name, col) :: rest
      else (n, c) :: assign name col rest
  end.

Fixpoint lookup (name : string) (cs : list (string * Column)) : option Column :=
  match cs with
  | [] => None
  | (n, c) :: rest => if String.eqb n name then Some c else lookup name rest
  end.

(** Boolean-mask selection [s[mask]] of a list of cells. *)
Fixpoint select {A : Type} (mask : list bool) (l : list A) : list A :=
  match mask, l with
  | b :: mask', x :: l' => if b then x :: select mask' l' else select mask' l'
  | _, _ => []
  end.

Definition select_column (mask : list bool) (c : Column) : Column :=
  match c with
  | FloatCol l => FloatCol (select mask l)
  | PeriodCol l => PeriodCol (select mask l)
  end.

(** [df[mask]]: a new frame with the selected rows of every column. *)
Definition select_frame (mask : list bool) (df : DataFrame) : DataFrame :=
  {| rows := select mask (rows df);
     assigned := map (fun nc => (fst nc, select_column mask (snd nc)))
                     (assigned df) |}.

(** [Series.shift(periods)] of an integer column: the result is a float
    column, positions shifted out of the table are lost and the positions
    left free hold [NaN]. *)
Definition shift (periods : Z) (c : list Z) : list Float.t :=
  let v := map Float.of_Z c in
  let n := List.length v in
  if periods <? 0
  then let k := Z.to_nat (- periods) in
       skipn k v ++ repeat Float.NaN (Nat.min k n)
  else let k := Z.to_nat periods in
       repeat Float.NaN (Nat.min k n) ++ firstn (Nat.sub n k) v.

(* ================================================================== *)
(** ** The object state monad *)

(** A computation on the frame object [df]: it returns a value or raises
    ([None]) and leaves the object in a new state either way. *)
Definition Py (A : Type) : Type := DataFrame -> option A * DataFrame.

Definition ret {A : Type} (a : A) : Py A := fun df => (Some a, df).

Definition raise {A : Type} : Py A := fun df => (None, df).

Definition bind {A B : Type} (m : Py A) (f : A -> Py B) : Py B :=
  fun df =>
    match m df with
    | (Some a, df') => f a df'
    | (None, df') => (None, df')
    end.

Notation "x <- m ;; k" := (bind m (fun x => k))
  (at level 61, m at next level, right associativity).
Notation "m ;; k" := (bind m (fun _ => k))
  (at level 61, right associativity).

(** The frame as it is now. *)
Definition self : Py DataFrame := fun df => (Some df, df).

(** [df['field']] for a column of the data set. *)
Definition getcol {A : Type} (field : Rental -> A) : Py (list A) :=
  fun df => (Some (map field (rows df)), df).

(** [df[name]] for an added column; raises when there is none. *)
Definition getitem (name : string) : Py Column :=
  fun df => (lookup name (assigned df), df).

(** [df[name] = col]: the one operation that writes to the object. *)
Definition setitem (name : string) (col : Column) : Py unit :=
  fun df => (Some tt, {| rows := rows df;
                         assigned := assign name col (assigned df) |}).

Definition result {A : Type} (m : Py A) (df : DataFrame) : option A :=
  fst (m df).

Definition final {A : Type} (m : Py A) (df : DataFrame) : DataFrame :=
  snd (m df).

(* ================================================================== *)
(** ** Grouping *)

(** Group keys carry a three-way comparison; [groupby] sorts its keys by it. *)
Class KeyOrder (K : Type) : Type := { kcmp : K -> K -> comparison }.

Definition klt {K : Type} `{KeyOrder K} (a b : K) : Prop := kcmp a b = Lt.

Definition keqb {K : Type} `{KeyOrder K} (a b : K) : bool :=
  match kcmp a b with Eq => true | _ => false end.

Section GroupBy.

Context {K : Type} `{KeyOrder K} {R : Type}.
Variable key : R -> K.

(** Sorted insertion without repetition. *)
Fixpoint insert_key (k : K) (l : list K) : list K :=
  match l with
  | [] => [k]
  | h :: t =>
      match kcmp k h with
      | Lt => k :: l
      | Eq => l
      | Gt => h :: insert_key k t
      end
  end.

(** The distinct keys, ascending. *)
Definition unique_sorted (l : list K) : list K := fold_right insert_key [] l.

(** The records of one group, in table order. *)
Definition group_of (k : K) (l : list R) : list R :=
  filter (fun r => keqb (key r) k) l.

(** [df.groupby(key)]: one group per distinct key, keys ascending. *)
Definition groupby (l : list R) : list (K * list R) :=
  map (fun k => (k, group_of k l)) (unique_sorted (map key l)).

End GroupBy.

(** ['mean'] of an integer column over one group. *)
Definition agg_mean {R : Type} (field : R -> Z) (g : list R) : Float.t :=
  Float.mean (map (fun r => Float.of_Z (field r)) g).

(** Integer keys, and pairs of keys in lexicographic order (the order of a
    multi-column [groupby]).  A monthly period is ordered as the pair of its
    year and its month. *)
Definition lex_compare {A B : Type} `{KeyOrder A} `{KeyOrder B}
  (p q : A * B) : comparison :=
  match kcmp (fst p) (fst q) with
  | Eq => kcmp (snd p) (snd q)
  | c => c
  end.

#[export] Instance Z_KeyOrder : KeyOrder Z := {| kcmp := Z.compare |}.

#[export] Instance pair_KeyOrder {A B : Type} `{KeyOrder A} `{KeyOrder B}
  : KeyOrder (A * B) := {| kcmp := lex_compare |}.

(** [Series.map(dict)]: a key without an entry maps to the missing value. *)
Fixpoint dict_get (k : Z) (d : list (Z * string)) : option string :=
  match d with
  | [] => None
  | (k', v) :: rest => if Z.eqb k' k then Some v else dict_get k rest
  end.

(* ================================================================== *)
(** ** Derived views *)

Module Hourly.
Record row : Type := mk {
  hr : Z; casual : Float.t; registered : Float.t; cnt : Float.t
}.
End Hourly.

Module Daily.
Record row : Type := mk {
  weekday : Z; casual : Float.t; registered : Float.t; cnt : Float.t;
  day_name : option string
}.
End Daily.

Module Weather.
Record row : Type := mk {
  weathersit : Z; casual : Float.t; registered : Float.t; cnt : Float.t;
  weather_desc : option string
}.
End Weather.

Module MonthlyYm.
Record row : Type := mk { ym : string; yr : Z; cnt : Float.t }.
End MonthlyYm.

Module Monthly.
Record row : Type := mk {
  yr : Z; mnth : Z; casual : Float.t; registered : Float.t; cnt : Float.t
}.
End Monthly.

(* ================================================================== *)
(** ** The helper functions of the dashboard *)

Definition create_hourly_patterns_df : Py (list Hourly.row) :=
  df <- self;;
  ret (map (fun kg =>
              Hourly.mk (fst kg)
                        (agg_mean casual (snd kg))
                        (agg_mean registered (snd kg))
                        (agg_mean cnt (snd kg)))
           (groupby hr (rows df))).

Definition day_names : list (Z * string) :=
  [(0, "Sunday"); (1, "Monday"); (2, "Tuesday"); (3, "Wednesday");
   (4, "Thursday"); (5, "Friday"); (6, "Saturday")]%string.

Definition create_daily_patterns_df : Py (list Daily.row) :=
  df <- self;;
  ret (map (fun kg =>
              Daily.mk (fst kg)
                       (agg_mean casual (snd kg))
                       (agg_mean registered (snd kg))
                       (agg_mean cnt (snd kg))
                       (dict_get (fst kg) day_names))
           (groupby weekday (rows df))).

Definition weather_descs : list (Z * string) :=
  [(1, "Clear"); (2, "Mist + Cloudy"); (3, "Light Snow/Rain");
   (4, "Heavy Rain/Snow")]%string.

Definition create_weather_impact_df : Py (list Weather.row) :=
  df <- self;;
  ret (map (fun kg =>
              Weather.mk (fst kg)
                         (agg_mean casual (snd kg))
                         (agg_mean registered (snd kg))
                         (agg_mean cnt (snd kg))
                         (dict_get (fst kg) weather_descs))
           (groupby weathersit (rows df))).

(** The helper writes the period column [ym] into the frame it is given and
    groups by the columns [ym] and [yr] of that frame. *)
Definition create_monthly_trends_df : Py (list MonthlyYm.row) :=
  dates <- getcol dteday;;
  setitem "ym" (PeriodCol (map to_period dates));;
  col <- getitem "ym";;
  df <- self;;
  match col with
  | PeriodCol ym =>
      ret (map (fun kg =>
                  MonthlyYm.mk (period_str (fst (fst kg)))
                               (snd (fst kg))
                               (agg_mean (fun pr => cnt (snd pr)) (snd kg)))
               (groupby (fun pr => (fst pr, yr (snd pr)))
                        (combine ym (rows df))))
  | FloatCol _ => raise
  end.

Definition create_lag_analysis_df : Py DataFrame :=
  c <- getcol cnt;;        setitem "cnt_lag1" (FloatCol (shift (-1) c));;
  c <- getcol cnt;;        setitem "cnt_lag2" (FloatCol (shift (-2) c));;
  c <- getcol casual;;     setitem "casual_lag1" (FloatCol (shift (-1) c));;
  c <- getcol casual;;     setitem "casual_lag2" (FloatCol (shift (-2) c));;
  c <- getcol registered;; setitem "registered_lag1" (FloatCol (shift (-1) c));;
  c <- getcol registered;; setitem "registered_lag2" (FloatCol (shift (-2) c));;
  w <- getcol weathersit;;
  df <- self;;
  ret (select_frame (map (fun x => 3 <=? x) w) df).

(* ================================================================== *)
(** ** The monthly section of the page *)

(** The inline aggregation [monthly_trends] of the filtered hourly frame. *)
Definition monthly_trends : Py (list Monthly.row) :=
  df <- self;;
  ret (map (fun kg =>
              Monthly.mk (fst (fst kg)) (snd (fst kg))
                         (agg_mean casual (snd kg))
                         (agg_mean registered (snd kg))
                         (agg_mean cnt (snd kg)))
           (groupby (fun r => (yr r, mnth r)) (rows df))).

(** [monthly_trends[monthly_trends['yr'] == y][field].mean()] *)
Definition year_mean (field : Monthly.row -> Float.t) (y : Z)
  (mt : list Monthly.row) : Float.t :=
  Float.mean (map field (filter (fun r => Monthly.yr r =? y) mt)).

(** One entry of [pertumbuhan_tahunan]. *)
Definition growth (field : Monthly.row -> Float.t) (mt : list Monthly.row)
  : Float.t :=
  Float.mul
    (Float.sub (Float.div (year_mean field 1 mt) (year_mean field 0 mt))
               (Float.of_Z 1))
    (Float.of_Z 100).

Definition pertumbuhan_tahunan (mt : list Monthly.row)
  : list (string * Float.t) :=
  [("casual"%string, growth Monthly.casual mt);
   ("registered"%string, growth Monthly.registered mt)].

(** The statements of the section in page order: the helper is called on the
    filtered frame, its table is dropped, and the inline aggregation and the
    growth figures are computed from the same frame object. *)
Definition monthly_section
  : Py (list Monthly.row * list (string * Float.t)) :=
  create_monthly_trends_df;;
  mt <- monthly_trends;;
  ret (mt, pertumbuhan_tahunan mt).
(* ================================================================== *)
(** ** The objects of the page *)







(* ================================================================== *)
(** ** The hourly pattern in binary64 *)

(** The hourly pattern with the doubles that the table library computes. *)
Definition create_hourly_patterns_df_b64 : Py (list Hourly.row) :=
  df <- self;;
  ret (map (fun kg =>
              Hourly.mk (fst kg)
                        (B64.mean_int (map casual (snd kg)))
                        (B64.mean_int (map registered (snd kg)))
                        (B64.mean_int (map cnt (snd kg))))
           (groupby hr (rows df))).

(** A row of the exact hourly pattern, with its three cells rounded. *)
Definition round_hourly (r : Hourly.row) : Hourly.row :=
  Hourly.mk (Hourly.hr r)
            (B64.round_cell (Hourly.casual r))
            (B64.round_cell (Hourly.registered r))
            (B64.round_cell (Hourly.cnt r)).

(* ================================================================== *)
(** ** Reference notions used in the statements *)

(** The arithmetic mean of integers, as an exact rational. *)
Definition arith_mean (l : list Z) : Q :=
  (inject_Z (fold_right Z.add 0%Z l) / inject_Z (Z.of_nat (List.length l)))%Q.

(** The float cell that holds the arithmetic mean of a list of integers
    (the rational in lowest terms). *)
Definition mean_cell (l : list Z) : Float.t := Float.Fin (Qred (arith_mean l)).

(** A row of the weekday pattern in the order (key, label, means). *)
Definition daily_tuple (r : Daily.row)
  : Z * option string * Float.t * Float.t * Float.t :=
  (Daily.weekday r, Daily.day_name r,
   Daily.casual r, Daily.registered r, Daily.cnt r).

(** Chronological order of the rows of the monthly trend. *)
Definition chrono_lt (a b : Monthly.row) : Prop :=
  Monthly.yr a < Monthly.yr b \/
  (Monthly.yr a = Monthly.yr b /\ Monthly.mnth a < Monthly.mnth b).

(** The records of one month of one year. *)
Definition records_of_month (y m : Z) (rs : list Rental) : list Rental :=
  filter (fun r => (yr r =? y) && (mnth r =? m)) rs.

(** [(now / before - 1) * 100] on float cells. *)
Definition pct_change (now before : Float.t) : Float.t :=
  Float.mul (Float.sub (Float.div now before) (Float.of_Z 1)) (Float.of_Z 100).

(** The mean of a count over all the records of one year. *)
Definition raw_year_mean (field : Rental -> Z) (y : Z) (rs : list Rental)
  : Float.t :=
  agg_mean field (filter (fun r => yr r =? y) rs).

(** The months of one year that have a record, ascending. *)
Definition months_of_year (y : Z) (rs : list Rental) : list Z :=
  unique_sorted (map mnth (filter (fun r => yr r =? y) rs)).

(** The mean, over the months of one year, of the monthly means of a count. *)
Definition mean_of_monthly_means (field : Rental -> Z) (y : Z)
  (rs : list Rental) : Float.t :=
  Float.mean (map (fun m => agg_mean field (records_of_month y m rs))
                  (months_of_year y rs)).

(** What the growth formula gives over a zero base, from the year-1 mean. *)
Definition zero_base_growth (now : Float.t) : Float.t :=
  match now with
  | Float.Fin x => Float.scale_inf true (Float.sign x)
  | other => other
  end.

(** ** The lag table, row by row *)

Module Lag.
Record row : Type := mk {
  base : Rental;
  cnt_lag1 : Float.t; cnt_lag2 : Float.t;
  casual_lag1 : Float.t; casual_lag2 : Float.t;
  registered_lag1 : Float.t; registered_lag2 : Float.t
}.
End Lag.

Definition float_column (name : string) (df : DataFrame)
  : option (list Float.t) :=
  match lookup name (assigned df) with
  | Some (FloatCol l) => Some l
  | _ => None
  end.

Definition zip_lag (rs : list Rental) (c1 c2 a1 a2 r1 r2 : list Float.t)
  : list Lag.row :=
  map (fun t =>
         match t with
         | (r, (x1, (x2, (y1, (y2, (z1, z2)))))) =>
             Lag.mk r x1 x2 y1 y2 z1 z2
         end)
      (combine rs (combine c1 (combine c2 (combine a1
         (combine a2 (combine r1 r2)))))).

(** The rows of a frame that carries the six lag columns; [None] when one
    of them is absent. *)
Definition lag_rows (df : DataFrame) : option (list Lag.row) :=
  match float_column "cnt_lag1" df, float_column "cnt_lag2" df,
        float_column "casual_lag1" df, float_column "casual_lag2" df,
        float_column "registered_lag1" df, float_column "registered_lag2" df
  with
  | Some c1, Some c2, Some a1, Some a2, Some r1, Some r2 =>
      Some (zip_lag (rows df) c1 c2 a1 a2 r1 r2)
  | _, _, _, _, _, _ => None
  end.

(** The count of the record at position [i] of the full sequence, or the
    missing value when there is no such position. *)
Definition count_at (field : Rental -> Z) (rs : list Rental) (i : nat)
  : Float.t :=
  match nth_error rs i with
  | Some r => Float.of_Z (field r)
  | None => Float.NaN
  end.

Definition lag_row_at (rs : list Rental) (i : nat) (r : Rental) : Lag.row :=
  Lag.mk r
         (count_at cnt rs (i + 1)) (count_at cnt rs (i + 2))
         (count_at casual rs (i + 1)) (count_at casual rs (i + 2))
         (count_at registered rs (i + 1)) (count_at registered rs (i + 2)).

(** The lag table as the specification words it: the records of adverse
    weather, by position in the full sequence. *)
Definition bad_weather_lag (rs : list Rental) : list Lag.row :=
  flat_map (fun i =>
              match nth_error rs i with
              | Some r => if 3 <=? weathersit r then [lag_row_at rs i r] else []
              | None => []
              end)
           (seq 0 (List.length rs)).

(** The state of the frame after the six assignments of the lag helper. *)
Definition lag_state (df : DataFrame) : DataFrame :=
  {| rows := rows df;
     assigned :=
       assign "registered_lag2" (FloatCol (shift (-2) (map registered (rows df))))
      (assign "registered_lag1" (FloatCol (shift (-1) (map registered (rows df))))
      (assign "casual_lag2" (FloatCol (shift (-2) (map casual (rows df))))
      (assign "casual_lag1" (FloatCol (shift (-1) (map casual (rows df))))
      (assign "cnt_lag2" (FloatCol (shift (-2) (map cnt (rows df))))
      (assign "cnt_lag1" (FloatCol (shift (-1) (map cnt (rows df))))
              (assigned df)))))) |}.

(** The lag rows of a sequence, each record with the counts of the next two
    records of the rest of the sequence. *)
Fixpoint lag_tails (rs : list Rental) : list Lag.row :=
  match rs with
  | [] => []
  | r :: t =>
      Lag.mk r
             (count_at cnt t 0) (count_at cnt t 1)
             (count_at casual t 0) (count_at casual t 1)
             (count_at registered t 0) (count_at registered t 1)
      :: lag_tails t
  end.


(** The row of the helper's monthly table that corresponds to a row of the
    inline monthly trend, for a given calendar year of year index 0. *)
Definition helper_row_of (base : Z) (row : Monthly.row) : MonthlyYm.row :=
  MonthlyYm.mk (period_str (base + Monthly.yr row, Monthly.mnth row))
               (Monthly.yr row) (Monthly.cnt row).

(** From the key (yr, mnth) to the key (period, yr) of the helper. *)
Definition period_key (base : Z) (k : Z * Z) : Period * Z :=
  ((base + fst k, snd k), fst k).

(* ================================================================== *)
(** ** Sample inputs *)

(** Three hourly records over two hours. *)
Definition hourly_sample : DataFrame :=
  {| rows := [mkRental (mkDate 2011 1 1) 8 6 1 0 1 3 13 16;
              mkRental (mkDate 2011 1 1) 9 6 1 0 1 8 32 40;
              mkRental (mkDate 2011 1 2) 8 0 1 0 2 4 10 14];
     assigned := [] |}.

(** The three records of the weekday example. *)
Definition weekday_sample : DataFrame :=
  {| rows := [mkRental (mkDate 2011 1 2) 0 0 1 0 1 10 90 100;
              mkRental (mkDate 2011 1 9) 0 0 1 0 1 20 80 100;
              mkRental (mkDate 2011 1 3) 0 1 1 0 1 5 45 50];
     assigned := [] |}.

(** A frame with one record of an unlabelled weather code. *)
Definition weather_sample : DataFrame :=
  {| rows := [mkRental (mkDate 2011 1 1) 7 6 1 0 1 3 13 16;
              mkRental (mkDate 2011 1 1) 8 6 1 0 5 1 2 3];
     assigned := [] |}.

(** One record of year 0, and four of year 1 spread unevenly over two
    months. *)
Definition growth_sample : DataFrame :=
  {| rows := [mkRental (mkDate 2012 2 1) 0 3 2 1 1 40 80 120;
              mkRental (mkDate 2011 1 1) 0 6 1 0 1 10 20 30;
              mkRental (mkDate 2012 1 1) 0 0 1 1 1 10 20 30;
              mkRental (mkDate 2012 1 2) 0 1 1 1 1 10 20 30;
              mkRental (mkDate 2012 1 3) 0 2 1 1 1 10 20 30];
     assigned := [] |}.

(** No casual rental at all in year 0. *)
Definition zero_base_sample : DataFrame :=
  {| rows := [mkRental (mkDate 2011 1 1) 0 6 1 0 1 0 5 5;
              mkRental (mkDate 2012 1 1) 0 0 1 1 1 7 9 16];
     assigned := [] |}.

(** Five consecutive days, the fourth with adverse weather. *)
Definition day_n (d w c r : Z) : Rental :=
  mkRental (mkDate 2011 1 d) 0 0 1 0 w c r (c + r).

Definition five_days : DataFrame :=
  {| rows := [day_n 1 1 10 20; day_n 2 2 11 21; day_n 3 1 12 22;
              day_n 4 3 13 23; day_n 5 1 14 24];
     assigned := [] |}.

(** Hourly records of two years whose date agrees with [yr] and [mnth]. *)
Definition two_years : DataFrame :=
  {| rows := [mkRental (mkDate 2012 3 5) 7 1 3 1 1 4 20 24;
              mkRental (mkDate 2011 3 5) 8 6 3 0 2 2 10 12;
              mkRental (mkDate 2011 11 9) 8 3 11 0 1 1 6 7;
              mkRental (mkDate 2011 3 6) 9 0 3 0 1 6 10 16];
     assigned := [] |}.

(* ================================================================== *)
(** ** The rest of the page: filter, metrics and annotations *)

(** Calendar dates compare by year, then month, then day. *)
Definition date_key (d : Date) : Z * (Z * Z) := (year d, (month d, day d)).

Definition date_compare (a b : Date) : comparison :=
  lex_compare (date_key a) (date_key b).

#[export] Instance Date_KeyOrder : KeyOrder Date := {| kcmp := date_compare |}.

Definition date_leb (a b : Date) : bool :=
  match date_compare a b with Gt => false | _ => true end.

(** [t[i]] on a tuple: an index past the end raises. *)
Definition index {A : Type} (t : list A) (i : nat) : Py A :=
  fun df => (nth_error t i, df).

(** [table.loc[label]] on a table with the default index 0..n-1: a label
    that is not an index raises. *)
Definition loc {A : Type} (label : Z) (table : list A) : Py A :=
  fun df => (if label <? 0 then None else nth_error table (Z.to_nat label), df).

(** Element-wise [&] of two boolean columns. *)
Definition mask_and (a b : list bool) : list bool :=
  map (fun p => andb (fst p) (snd p)) (combine a b).

(** [Series.isin(values)] on one cell. *)
Definition isin (values : list Z) (x : Z) : bool := existsb (Z.eqb x) values.

(** The records that pass the filter. *)
Definition passes (lo hi : Date) (selected : list Z) (r : Rental) : bool :=
  date_leb lo (dteday r) && date_leb (dteday r) hi
  && isin selected (weathersit r).

(** The filtered hourly frame: the state is [hour_df], the value is the new
    frame [filtered_hour_df]. *)
Definition filter_hours (date_range : list Date) (selected_weather : list Z)
  : Py DataFrame :=
  dates <- getcol dteday;;
  lo <- index date_range 0;;
  dates' <- getcol dteday;;
  hi <- index date_range 1;;
  w <- getcol weathersit;;
  df <- self;;
  ret (select_frame
         (mask_and (mask_and (map (fun d => date_leb lo d) dates)
                             (map (fun d => date_leb d hi) dates'))
                   (map (isin selected_weather) w))
         df).

(** 64-bit integers wrap around. *)
Definition wrap64 (z : Z) : Z := (z + 2 ^ 63) mod 2 ^ 64 - 2 ^ 63.

(** [Series.sum()] of an integer column, in 64-bit arithmetic. *)
Definition series_sum (l : list Z) : Z :=
  fold_left (fun acc x => wrap64 (acc + x)) l 0.

(** Order of float cells that are not [NaN]. *)
Definition float_leb (a b : Float.t) : bool :=
  match a, b with
  | Float.NInf, _ | _, Float.PInf => true
  | Float.Fin x, Float.Fin y => Qle_bool x y
  | _, _ => false
  end.

Definition float_max (a b : Float.t) : Float.t :=
  if float_leb a b then b else a.

(** [Series.max()] with the default [skipna=True]. *)
Definition series_max (l : list Float.t) : Float.t :=
  match Float.dropna l with
  | [] => Float.NaN
  | x :: t => fold_left float_max t x
  end.

(** The three figures at the top of the page. *)
Definition total_rides : Py Z :=
  c <- getcol cnt;; ret (series_sum c).

Definition avg_daily_rides : Py Float.t :=
  df <- self;;
  ret (Float.mean (map (fun kg => Float.of_Z (series_sum (map cnt (snd kg))))
                       (groupby dteday (rows df)))).

Definition peak_hour_rides : Py Float.t :=
  df <- self;;
  ret (series_max (map (fun kg => agg_mean cnt (snd kg))
                       (groupby hr (rows df)))).

(** The two annotations of the hourly chart read the rows with the index
    labels 8 and 17 of the hourly pattern. *)
Definition hourly_annotations : Py (Float.t * Float.t) :=
  hourly_patterns <- create_hourly_patterns_df;;
  r8 <- loc 8 hourly_patterns;;
  r17 <- loc 17 hourly_patterns;;
  ret (Hourly.registered r8, Hourly.registered r17).

(** [label == name] on a label cell; a missing label equals no name. *)
Definition label_is (name : string) (l : option string) : bool :=
  match l with
  | Some s => String.eqb s name
  | None => false
  end.

(** The two annotations of the weekday chart read the first row labelled
    Sunday, respectively Friday. *)
Definition daily_annotations : Py (Float.t * Float.t) :=
  daily_patterns <- create_daily_patterns_df;;
  sunday <- index (map Daily.casual
                       (filter (fun r => label_is "Sunday" (Daily.day_name r))
                               daily_patterns)) 0;;
  friday <- index (map Daily.registered
                       (filter (fun r => label_is "Friday" (Daily.day_name r))
                               daily_patterns)) 0;;
  ret (sunday, friday).

Module WeatherInline.
Record row : Type := mk {
  weathersit : Z; casual : Float.t; registered : Float.t; cnt : Float.t;
  weather_condition : option string
}.
End WeatherInline.

Definition weather_labels : list (Z * string) :=
  [(1, "Clear/Partly Cloudy"); (2, "Mist/Cloudy"); (3, "Light Rain/Snow");
   (4, "Heavy Rain/Snow")]%string.

(** The weather section of the page: the helper is called, its table is
    replaced by the inline aggregation, and the two baselines are read at
    the index label 0. *)
Definition weather_section
  : Py (list WeatherInline.row * Float.t * Float.t) :=
  create_weather_impact_df;;
  df <- self;;
  let weather_impact :=
    map (fun kg =>
           WeatherInline.mk (fst kg)
                            (agg_mean casual (snd kg))
                            (agg_mean registered (snd kg))
                            (agg_mean cnt (snd kg))
                            (dict_get (fst kg) weather_labels))
        (groupby weathersit (rows df)) in
  r <- loc 0 weather_impact;;
  r' <- loc 0 weather_impact;;
  ret (weather_impact, WeatherInline.casual r, WeatherInline.registered r').

(** The labels of the monthly chart. *)
Definition nama_bulan : list (Z * string) :=
  [(1, "Jan"); (2, "Feb"); (3, "Mar"); (4, "Apr"); (5, "Mei"); (6, "Jun");
   (7, "Jul"); (8, "Agu"); (9, "Sep"); (10, "Okt"); (11, "Nov");
   (12, "Des")]%string.

Definition nama_tahun : list (Z * string) := [(0, "2011"); (1, "2012")]%string.

(** A label cell inside an f-string; the missing value prints as [nan]. *)
Definition fmt_label (l : option string) : string :=
  match l with Some s => s | None => "nan"%string end.

(** [f"{x['bulan']} {x['tahun']}"] for one row of the monthly trend. *)
Definition periode (x : Monthly.row) : string :=
  String.append (fmt_label (dict_get (Monthly.mnth x) nama_bulan))
    (String.append " " (fmt_label (dict_get (Monthly.yr x) nama_tahun))).

(** Cells that hold a number. *)
Definition is_fin (a : Float.t) : Prop := exists q, a = Float.Fin q.


(** The number of distinct hours of a frame. *)
Definition distinct_hours (df : DataFrame) : nat :=
  List.length (unique_sorted (map hr (rows df))).

(** The registered mean of one hour of a frame. *)
Definition registered_at (h : Z) (df : DataFrame) : Float.t :=
  mean_cell (map registered (filter (fun r => hr r =? h) (rows df))).

(** The mean of a count over the records of one weekday. *)
Definition weekday_mean (field : Rental -> Z) (d : Z) (df : DataFrame)
  : Float.t :=
  mean_cell (map field (filter (fun r => weekday r =? d) (rows df))).

(** The mean of a count over the records of one weather code. *)
Definition weather_mean (field : Rental -> Z) (w : Z) (df : DataFrame)
  : Float.t :=
  mean_cell (map field (filter (fun r => weathersit r =? w) (rows df))).

(** The key and the three means of a row of the two weather tables. *)
Definition weather_figures (r : Weather.row) : Z * Float.t * Float.t * Float.t :=
  (Weather.weathersit r, Weather.casual r, Weather.registered r, Weather.cnt r).

Definition inline_figures (r : WeatherInline.row)
  : Z * Float.t * Float.t * Float.t :=
  (WeatherInline.weathersit r, WeatherInline.casual r,
   WeatherInline.registered r, WeatherInline.cnt r).

(** The lag row of a record with nothing after it. *)
Definition lag_row_at_end (r : Rental) : Lag.row :=
  Lag.mk r Float.NaN Float.NaN Float.NaN Float.NaN Float.NaN Float.NaN.

(** A frame without records. *)
Definition no_records (cols : list (string * Column)) : DataFrame :=
  {| rows := []; assigned := cols |}.

(** Twenty-four hourly records, one per hour. *)
Definition hour_n (h : nat) : Rental :=
  mkRental (mkDate 2011 1 1) (Z.of_nat h) 6 1 0 1
           (Z.of_nat h) (2 * Z.of_nat h) (3 * Z.of_nat h).

Definition full_day : DataFrame :=
  {| rows := map hour_n (seq 0 24); assigned := [] |}.

(** The same day without a record of hour 8. *)
Definition day_without_8 : DataFrame :=
  {| rows := map hour_n (seq 0 8 ++ seq 9 15); assigned := [] |}.

(* ================================================================== *)
(** * Verification *)

(** ** The key orders are strict total orders *)

Class KeyOrderLaws (K : Type) `{KeyOrder K} : Prop := {
  kcmp_eq : forall a b, kcmp a b = Eq <-> a = b;
  kcmp_opp : forall a b, kcmp b a = CompOpp (kcmp a b);
  kcmp_trans : forall a b c, kcmp a b = Lt -> kcmp b c = Lt -> kcmp a c = Lt
}.

#[export] Instance Z_KeyOrderLaws : KeyOrderLaws Z.
Proof.
  split.
  - apply Z.compare_eq_iff.
  - intros a b. apply Z.compare_antisym.
  - intros a b c. simpl. rewrite !Z.compare_lt_iff. lia.
Qed.

Section Lexicographic.

Context {A B : Type} `{KeyOrderLaws A} `{KeyOrderLaws B}.

Lemma lex_compare_eq (p q : A * B) : lex_compare p q = Eq <-> p = q.
Proof.
  destruct p as [a b], q as [a' b']. unfold lex_compare. simpl.
  destruct (kcmp a a') eqn:E.
  - apply kcmp_eq in E. subst a'. rewrite kcmp_eq.
    split; [intros ->; reflexivity | intros [= ->]; reflexivity].
  - split; [discriminate | intros [= -> ->]].
    assert (kcmp a' a' = Eq) by (apply kcmp_eq; reflexivity). congruence.
  - split; [discriminate | intros [= -> ->]].
    assert (kcmp a' a' = Eq) by (apply kcmp_eq; reflexivity). congruence.
Qed.

Lemma lex_compare_opp (p q : A * B) :
  lex_compare q p = CompOpp (lex_compare p q).
Proof.
  destruct p as [a b], q as [a' b']. unfold lex_compare. simpl.
  rewrite (kcmp_opp a a'). destruct (kcmp a a'); simpl; auto using kcmp_opp.
Qed.

Lemma lex_compare_trans (p q r : A * B) :
  lex_compare p q = Lt -> lex_compare q r = Lt -> lex_compare p r = Lt.
Proof.
  destruct p as [a b], q as [a' b'], r as [a'' b'']. unfold lex_compare. simpl.
  destruct (kcmp a a') eqn:E1; try discriminate;
    destruct (kcmp a' a'') eqn:E2; try discriminate; intros Hb Hb'.
  - apply kcmp_eq in E1, E2. subst.
    assert (E : kcmp a'' a'' = Eq) by (apply kcmp_eq; reflexivity).
    rewrite E. eapply kcmp_trans; eassumption.
  - apply kcmp_eq in E1. subst. rewrite E2. reflexivity.
  - apply kcmp_eq in E2. subst. rewrite E1. reflexivity.
  - rewrite (kcmp_trans _ _ _ E1 E2). reflexivity.
Qed.

#[export] Instance pair_KeyOrderLaws : KeyOrderLaws (A * B).
Proof.
  split.
  - apply lex_compare_eq.
  - apply lex_compare_opp.
  - apply lex_compare_trans.
Qed.

End Lexicographic.

(* ================================================================== *)
(** ** Facts on float cells *)

Lemma dropna_of_Z (l : list Z) :
  Float.dropna (map Float.of_Z l) = map Float.of_Z l.
Proof.
  unfold Float.dropna. induction l as [|x l IH]; simpl; [reflexivity|].
  now rewrite IH.
Qed.

Lemma fold_add_of_Z (l : list Z) (a : Q) :
  exists q, fold_left Float.add (map Float.of_Z l) (Float.Fin a) = Float.Fin q
            /\ (q == a + inject_Z (fold_right Z.add 0%Z l))%Q.
Proof.
  revert a. induction l as [|x l IH]; intros a; simpl.
  - exists a. split; [reflexivity|]. unfold inject_Z. ring.
  - destruct (IH (Qred (a + inject_Z x))) as [q [Hq Hs]].
    exists q. split; [exact Hq|].
    rewrite Hs, Qred_correct, inject_Z_plus. ring.
Qed.

Lemma mean_of_Z (l : list Z) :
  l <> [] -> Float.mean (map Float.of_Z l) = mean_cell l.
Proof.
  intros Hl. unfold Float.mean. rewrite dropna_of_Z.
  destruct l as [|x l]; [congruence|].
  change (map Float.of_Z (x :: l)) with (Float.of_Z x :: map Float.of_Z l) at 1.
  cbv iota.
  destruct (fold_add_of_Z (x :: l) 0%Q) as [q [Hq Hs]].
  unfold Float.zero. rewrite Hq. rewrite length_map.
  unfold Float.of_Z at 1. unfold Float.div.
  assert (Hsign : Float.sign (inject_Z (Z.of_nat (List.length (x :: l)))) = Gt).
  { unfold Float.sign. simpl Qnum. apply Z.compare_gt_iff. simpl. lia. }
  rewrite Hsign. unfold mean_cell. f_equal. apply Qred_complete.
  rewrite Hs. unfold arith_mean. rewrite Qplus_0_l. reflexivity.
Qed.

Lemma agg_mean_is_mean {R : Type} (field : R -> Z) (g : list R) :
  g <> [] -> agg_mean field g = mean_cell (map field g).
Proof.
  intros Hg. unfold agg_mean. rewrite <- (map_map field Float.of_Z).
  apply mean_of_Z. destruct g; [congruence | discriminate].
Qed.

Lemma arith_mean_add (a b c : list Z) :
  List.length a = List.length b ->
  fold_right Z.add 0%Z c = fold_right Z.add 0%Z a + fold_right Z.add 0%Z b ->
  List.length c = List.length a ->
  (arith_mean c == arith_mean a + arith_mean b)%Q.
Proof.
  intros Hab Hs Hc. unfold arith_mean. rewrite Hc, <- Hab, Hs, inject_Z_plus.
  unfold Qdiv. ring.
Qed.

Lemma mean_cell_add (a b c : list Z) :
  List.length a = List.length b ->
  fold_right Z.add 0%Z c = fold_right Z.add 0%Z a + fold_right Z.add 0%Z b ->
  List.length c = List.length a ->
  mean_cell c = Float.add (mean_cell a) (mean_cell b).
Proof.
  intros Hab Hs Hc. unfold mean_cell, Float.add. f_equal.
  apply Qred_complete. rewrite !Qred_correct.
  apply arith_mean_add; assumption.
Qed.

Lemma sum_map_add {R : Type} (f g h : R -> Z) (l : list R) :
  (forall r, In r l -> h r = f r + g r) ->
  fold_right Z.add 0 (map h l)
  = fold_right Z.add 0 (map f l) + fold_right Z.add 0 (map g l).
Proof.
  induction l as [|x l IH]; intros Hl; simpl; [reflexivity|].
  rewrite IH by (intros r Hr; apply Hl; now right).
  rewrite (Hl x) by now left. lia.
Qed.

(* ================================================================== *)
(** ** Facts on grouping *)

Lemma StronglySorted_map {A B : Type} (R : B -> B -> Prop) (f : A -> B)
  (l : list A) :
  StronglySorted R (map f l) <-> StronglySorted (fun a b => R (f a) (f b)) l.
Proof.
  induction l as [|x l IH]; simpl.
  - split; constructor.
  - split; intros HS; apply StronglySorted_inv in HS; destruct HS as [HS HF];
      constructor; try (apply IH; exact HS).
    + rewrite Forall_map in HF. exact HF.
    + rewrite Forall_map. exact HF.
Qed.

Section GroupByFacts.

Context {K : Type} `{KeyOrderLaws K}.

Lemma kcmp_refl (a : K) : kcmp a a = Eq.
Proof. apply kcmp_eq. reflexivity. Qed.

Lemma keqb_eq (a b : K) : keqb a b = true <-> a = b.
Proof.
  unfold keqb. rewrite <- kcmp_eq. destruct (kcmp a b); split; congruence.
Qed.

Lemma kcmp_gt_lt (a b : K) : kcmp a b = Gt -> kcmp b a = Lt.
Proof. intros E. rewrite kcmp_opp, E. reflexivity. Qed.

Lemma klt_irrefl (a : K) : ~ klt a a.
Proof. unfold klt. rewrite kcmp_refl. discriminate. Qed.

Lemma insert_key_In (k x : K) (l : list K) :
  In x (insert_key k l) <-> x = k \/ In x l.
Proof.
  induction l as [|h t IH]; simpl.
  - intuition.
  - destruct (kcmp k h) eqn:E; simpl.
    + apply kcmp_eq in E. subst h. intuition.
    + intuition.
    + rewrite IH. intuition.
Qed.

Lemma unique_sorted_In (x : K) (l : list K) :
  In x (unique_sorted l) <-> In x l.
Proof.
  unfold unique_sorted. induction l as [|h t IH]; simpl.
  - reflexivity.
  - rewrite insert_key_In, IH. intuition.
Qed.

Lemma insert_key_sorted (k : K) (l : list K) :
  StronglySorted klt l -> StronglySorted klt (insert_key k l).
Proof.
  induction 1 as [|h t HS IH HF]; simpl.
  - repeat constructor.
  - destruct (kcmp k h) eqn:E.
    + constructor; assumption.
    + constructor; [constructor; assumption|].
      constructor; [exact E|].
      eapply Forall_impl; [|exact HF].
      intros c Hc. eapply kcmp_trans; eassumption.
    + constructor; [exact IH|].
      apply Forall_forall. intros c Hc. apply insert_key_In in Hc.
      destruct Hc as [-> | Hc].
      * apply kcmp_gt_lt. exact E.
      * rewrite Forall_forall in HF. apply HF. exact Hc.
Qed.

Lemma unique_sorted_sorted (l : list K) : StronglySorted klt (unique_sorted l).
Proof.
  unfold unique_sorted. induction l as [|h t IH]; simpl.
  - constructor.
  - apply insert_key_sorted. exact IH.
Qed.

Lemma sorted_NoDup (l : list K) : StronglySorted klt l -> NoDup l.
Proof.
  induction 1 as [|h t HS IH HF]; constructor; [|exact IH].
  intros Hin. rewrite Forall_forall in HF. exact (klt_irrefl h (HF h Hin)).
Qed.

Lemma insert_key_below (k : K) (l : list K) :
  Forall (klt k) l -> insert_key k l = k :: l.
Proof.
  destruct l as [|h t]; [reflexivity|]. intros HF.
  apply Forall_inv in HF. simpl. unfold klt in HF. rewrite HF. reflexivity.
Qed.

(** Selecting keys commutes with sorting them. *)
Lemma filter_insert_key (P : K -> bool) (k : K) (l : list K) :
  StronglySorted klt l ->
  filter P (insert_key k l)
  = if P k then insert_key k (filter P l) else filter P l.
Proof.
  induction 1 as [|h t HS IH HF]; simpl.
  - destruct (P k); reflexivity.
  - destruct (kcmp k h) eqn:E.
    + apply kcmp_eq in E. subst h. simpl.
      destruct (P k); simpl; [rewrite kcmp_refl|]; reflexivity.
    + simpl. destruct (P k) eqn:Pk; [|reflexivity].
      symmetry. apply insert_key_below.
      assert (HF' : Forall (klt k) (h :: t)).
      { constructor; [exact E|]. eapply Forall_impl; [|exact HF].
        intros c Hc. eapply kcmp_trans; eassumption. }
      apply Forall_forall. intros c Hc.
      rewrite Forall_forall in HF'. apply HF'.
      change (In c (filter P (h :: t))) in Hc.
      apply filter_In in Hc. tauto.
    + simpl. rewrite IH.
      destruct (P h), (P k); simpl; rewrite ?E; reflexivity.
Qed.

Lemma filter_unique_sorted (P : K -> bool) (l : list K) :
  filter P (unique_sorted l) = unique_sorted (filter P l).
Proof.
  unfold unique_sorted. induction l as [|h t IH]; simpl; [reflexivity|].
  rewrite filter_insert_key by apply unique_sorted_sorted.
  fold (unique_sorted t). unfold unique_sorted at 1 2. rewrite IH.
  destruct (P h); reflexivity.
Qed.

Context {R : Type}.
Variable key : R -> K.

Lemma group_of_In (k : K) (l : list R) (r : R) :
  In r (group_of key k l) <-> In r l /\ key r = k.
Proof. unfold group_of. rewrite filter_In, keqb_eq. reflexivity. Qed.

Lemma groupby_keys (l : list R) :
  map fst (groupby key l) = unique_sorted (map key l).
Proof.
  unfold groupby. rewrite map_map. simpl. apply map_id.
Qed.

Lemma groupby_In (l : list R) (k : K) (g : list R) :
  In (k, g) (groupby key l) ->
  g = group_of key k l /\ In k (map key l) /\ g <> [].
Proof.
  unfold groupby. rewrite in_map_iff. intros [k' [[= <- <-] Hk]].
  rewrite unique_sorted_In in Hk. repeat split; [exact Hk|].
  apply in_map_iff in Hk. destruct Hk as [r [Hr Hin]].
  intros E. assert (Hg : In r (group_of key k' l)) by (apply group_of_In; auto).
  rewrite E in Hg. exact Hg.
Qed.

End GroupByFacts.

(** A key transformation that preserves the order commutes with sorting. *)
Section Monotone.

Context {K1 K2 : Type} `{KeyOrderLaws K1} `{KeyOrderLaws K2}.
Variable f : K1 -> K2.
Hypothesis f_mono : forall a b, kcmp (f a) (f b) = kcmp a b.

Lemma insert_key_map (k : K1) (l : list K1) :
  insert_key (f k) (map f l) = map f (insert_key k l).
Proof.
  induction l as [|h t IH]; simpl; [reflexivity|].
  rewrite f_mono. destruct (kcmp k h); simpl; [reflexivity..|].
  now rewrite IH.
Qed.

Lemma unique_sorted_map (l : list K1) :
  unique_sorted (map f l) = map f (unique_sorted l).
Proof.
  unfold unique_sorted. induction l as [|h t IH]; simpl; [reflexivity|].
  rewrite IH. apply insert_key_map.
Qed.

Lemma keqb_map (a b : K1) : keqb (f a) (f b) = keqb a b.
Proof. unfold keqb. now rewrite f_mono. Qed.

End Monotone.

Lemma keqb_Z (a b : Z) : keqb a b = (a =? b).
Proof.
  destruct (Z.eqb_spec a b) as [E|E].
  - apply keqb_eq. exact E.
  - destruct (keqb a b) eqn:Hk; [|reflexivity].
    apply keqb_eq in Hk. contradiction.
Qed.

Lemma group_of_Z {R : Type} (key : R -> Z) (k : Z) (l : list R) :
  group_of key k l = filter (fun r => key r =? k) l.
Proof. unfold group_of. apply filter_ext. intros r. apply keqb_Z. Qed.

Lemma keqb_pair (a b c d : Z) : keqb (a, b) (c, d) = (a =? c) && (b =? d).
Proof.
  destruct (keqb (a, b) (c, d)) eqn:Hk.
  - apply keqb_eq in Hk. injection Hk as -> ->. now rewrite !Z.eqb_refl.
  - destruct (Z.eqb_spec a c) as [->|]; [|reflexivity].
    destruct (Z.eqb_spec b d) as [->|]; [|reflexivity].
    assert (keqb (c, d) (c, d) = true) by now apply keqb_eq. congruence.
Qed.

Lemma klt_pair (a b c d : Z) :
  klt (a, b) (c, d) <-> a < c \/ (a = c /\ b < d).
Proof.
  unfold klt. simpl. unfold lex_compare. simpl.
  destruct (Z.compare_spec a c) as [->|Hlt|Hgt].
  - rewrite Z.compare_lt_iff. lia.
  - split; [lia | reflexivity].
  - split; [discriminate | lia].
Qed.

(* ================================================================== *)
(** ** Facts on binary64 rounding *)
Lemma pow2_pos (e : Z) : (0 < B64.pow2 e)%Q.
Proof. unfold B64.pow2. apply Qpower_0_lt. reflexivity. Qed.

Lemma pow2_add (a b : Z) : (B64.pow2 (a + b) == B64.pow2 a * B64.pow2 b)%Q.
Proof. unfold B64.pow2. apply Qpower_plus. discriminate. Qed.

Lemma pow2_inject (k : Z) : 0 <= k -> (inject_Z (2 ^ k) == B64.pow2 k)%Q.
Proof. intros Hk. unfold B64.pow2. now rewrite Zpower_Qpower. Qed.

Lemma nearest_even_error (y : Q) :
  (Qabs (inject_Z (B64.nearest_even y) - y) <= 1 # 2)%Q.
Proof.
  unfold B64.nearest_even.
  pose proof (Qfloor_le y) as Hlo. pose proof (Qlt_floor y) as Hhi.
  rewrite inject_Z_plus in Hhi. change (inject_Z 1) with 1%Q in Hhi.
  apply Qabs_Qle_condition.
  destruct (Qcompare_spec (y - inject_Z (Qfloor y)) (1 # 2)) as [E|E|E].
  - destruct (Z.even (Qfloor y)); [|rewrite inject_Z_plus;
                                    change (inject_Z 1) with 1%Q]; lra.
  - lra.
  - rewrite inject_Z_plus. change (inject_Z 1) with 1%Q. lra.
Qed.

(** The scaled value is at least [2^52]. *)
Lemma ulp_exponent_lower (x : Q) :
  (0 < x)%Q -> (B64.pow2 52 * B64.pow2 (B64.ulp_exponent x) <= x)%Q.
Proof.
  intros Hx. rewrite <- pow2_add. unfold B64.ulp_exponent.
  set (d := Z.log2 (Qnum x) - Z.log2 (Z.pos (Qden x))).
  destruct (Qle_bool (B64.pow2 d) x) eqn:E.
  - apply Qle_bool_iff in E. replace (52 + (d - 52)) with d by lia. exact E.
  - replace (52 + (d - 53)) with (d - 1) by lia.
    destruct x as [p q]. cbn [Qnum Qden] in d.
    assert (Hp : 0 < p) by (unfold Qlt in Hx; simpl in Hx; lia).
    pose proof (Z.log2_spec p Hp) as [Hp1 _].
    pose proof (Z.log2_spec (Z.pos q) ltac:(lia)) as [_ Hq2].
    pose proof (Z.log2_nonneg p) as Hlp.
    pose proof (Z.log2_nonneg (Z.pos q)) as Hlq.
    replace (d - 1) with (Z.log2 p - (Z.log2 (Z.pos q) + 1)) by (unfold d; lia).
    unfold B64.pow2. rewrite Qpower_minus by discriminate.
    fold (B64.pow2 (Z.log2 p)). fold (B64.pow2 (Z.log2 (Z.pos q) + 1)).
    rewrite <- !pow2_inject by lia.
    rewrite (Qmake_Qdiv p q).
    assert (H1 : (inject_Z (2 ^ Z.log2 p) <= inject_Z p)%Q)
      by (rewrite <- Zle_Qle; exact Hp1).
    assert (H2 : (inject_Z (Z.pos q) <= inject_Z (2 ^ (Z.log2 (Z.pos q) + 1)))%Q)
      by (rewrite <- Zle_Qle; unfold Z.succ in Hq2; lia).
    assert (H3 : (0 < inject_Z (Z.pos q))%Q)
      by (rewrite <- (Zlt_Qlt 0); lia).
    assert (H4 : (0 < inject_Z (2 ^ Z.log2 p))%Q)
      by (rewrite <- (Zlt_Qlt 0); apply Z.pow_pos_nonneg; lia).
    assert (H5 : (0 < inject_Z (2 ^ (Z.log2 (Z.pos q) + 1)))%Q) by lra.
    apply Qle_shift_div_l; [exact H3|].
    apply Qle_trans with (inject_Z (2 ^ Z.log2 p)); [|exact H1].
    apply Qle_trans with
      (inject_Z (2 ^ Z.log2 p) / inject_Z (2 ^ (Z.log2 (Z.pos q) + 1))
       * inject_Z (2 ^ (Z.log2 (Z.pos q) + 1)))%Q.
    + apply Qmult_le_l.
      * apply Qlt_shift_div_l; [exact H5 | lra].
      * exact H2.
    + assert (E' : (inject_Z (2 ^ Z.log2 p)
                    / inject_Z (2 ^ (Z.log2 (Z.pos q) + 1))
                    * inject_Z (2 ^ (Z.log2 (Z.pos q) + 1))
                    == inject_Z (2 ^ Z.log2 p))%Q) by (field; lra).
      rewrite E'. apply Qle_refl.
Qed.

Lemma round_pos_error (x : Q) :
  (0 < x)%Q -> (Qabs (B64.round_pos x - x) <= (1 # 2 ^ 53) * x)%Q.
Proof.
  intros Hx. unfold B64.round_pos.
  set (e := B64.ulp_exponent x).
  pose proof (pow2_pos e) as HP.
  pose proof (ulp_exponent_lower x Hx) as Hlow. fold e in Hlow.
  pose proof (nearest_even_error (x / B64.pow2 e)) as Hm.
  set (m := inject_Z (B64.nearest_even (x / B64.pow2 e))) in *.
  assert (E : (m * B64.pow2 e - x == (m - x / B64.pow2 e) * B64.pow2 e)%Q)
    by (field; lra).
  rewrite E, Qabs_Qmult, (Qabs_pos (B64.pow2 e)) by lra.
  apply Qle_trans with ((1 # 2) * B64.pow2 e)%Q.
  - apply Qmult_le_compat_r; [exact Hm | lra].
  - assert (H52 : (B64.pow2 52 == 4503599627370496)%Q) by reflexivity.
    rewrite H52 in Hlow.
    assert (Hu : ((1 # 2 ^ 53) == 1 # 9007199254740992)%Q) by reflexivity.
    rewrite Hu. lra.
Qed.

Lemma round53_comp (x y : Q) : (x == y)%Q -> B64.round53 x = B64.round53 y.
Proof. intros E. unfold B64.round53. now rewrite (Qred_complete x y E). Qed.

Lemma round_signed_error (r x : Q) :
  (r == x)%Q ->
  (Qabs (match Qcompare r 0 with
         | Eq => 0
         | Gt => B64.round_pos r
         | Lt => - B64.round_pos (- r)
         end - x) <= (1 # 2 ^ 53) * Qabs x)%Q.
Proof.
  intros E. rewrite <- E. clear E x.
  destruct (Qcompare_spec r 0) as [E|E|E].
  - rewrite E. discriminate.
  - assert (Hneg : (0 < - r)%Q) by lra.
    pose proof (round_pos_error (- r) Hneg) as H.
    rewrite (Qabs_neg r) by lra.
    assert (E' : (- B64.round_pos (- r) - r == - (B64.round_pos (- r) - - r))%Q)
      by ring.
    now rewrite E', Qabs_opp.
  - pose proof (round_pos_error r E) as H.
    rewrite (Qabs_pos r) by lra. exact H.
Qed.

(** The relative error of one rounding is at most [2^-53]. *)
Lemma round53_error (x : Q) :
  (Qabs (B64.round53 x - x) <= (1 # 2 ^ 53) * Qabs x)%Q.
Proof. unfold B64.round53. apply round_signed_error, Qred_correct. Qed.

Lemma round53_nonneg (x : Q) : (0 <= x)%Q -> (0 <= B64.round53 x)%Q.
Proof.
  intros Hx. pose proof (round53_error x) as H.
  rewrite (Qabs_pos x) in H by exact Hx.
  apply Qabs_Qle_condition in H.
  assert (Hu : ((1 # 2 ^ 53) == 1 # 9007199254740992)%Q) by reflexivity.
  rewrite Hu in H. lra.
Qed.

Lemma Qred_inject_Z (z : Z) : Qred (inject_Z z) = inject_Z z.
Proof.
  unfold inject_Z, Qred.
  pose proof (Z.ggcd_gcd z 1) as Hg.
  pose proof (Z.ggcd_correct_divisors z 1) as Hd.
  destruct (Z.ggcd z 1) as [g [a b]]. simpl in *.
  rewrite Z.gcd_1_r in Hg. subst g. destruct Hd as [Ha Hb].
  rewrite Z.mul_1_l in Ha, Hb. now subst a b.
Qed.

(** Integers below [2^53] are rounded to themselves. *)
Lemma round53_int (z : Z) :
  0 <= z < 2 ^ 53 -> (B64.round53 (inject_Z z) == inject_Z z)%Q.
Proof.
  intros [Hlo Hhi]. unfold B64.round53. rewrite Qred_inject_Z.
  destruct (Z.eq_dec z 0) as [->|Hz]; [reflexivity|].
  assert (Hpos : 0 < z) by lia.
  assert (Hc : Qcompare (inject_Z z) 0 = Gt).
  { apply Qgt_alt. rewrite <- (Zlt_Qlt 0). exact Hpos. }
  rewrite Hc. unfold B64.round_pos, B64.ulp_exponent. cbn [Qnum Qden inject_Z].
  change (Z.log2 1) with 0. rewrite Z.sub_0_r.
  pose proof (Z.log2_spec z Hpos) as [Hl1 _].
  pose proof (Z.log2_nonneg z) as Hl0.
  assert (Hl : Z.log2 z < 53) by (apply Z.log2_lt_pow2; lia).
  assert (Hle : Qle_bool (B64.pow2 (Z.log2 z)) (inject_Z z) = true).
  { apply Qle_bool_iff. rewrite <- pow2_inject by exact Hl0.
    rewrite <- Zle_Qle. exact Hl1. }
  rewrite Hle.
  set (k := 52 - Z.log2 z).
  assert (Hk : 0 <= k) by (unfold k; lia).
  replace (Z.log2 z - 52) with (- k) by (unfold k; lia).
  pose proof (pow2_pos k) as HPk.
  assert (Einv : (B64.pow2 (- k) == / B64.pow2 k)%Q) by (unfold B64.pow2; apply Qpower_opp).
  assert (Ey : ((inject_Z z) / B64.pow2 (- k) == inject_Z (z * 2 ^ k))%Q).
  { rewrite Einv, inject_Z_mult, pow2_inject by exact Hk.
    field. lra. }
  assert (Em : B64.nearest_even ((inject_Z z) / B64.pow2 (- k)) = z * 2 ^ k).
  { unfold B64.nearest_even. rewrite (Qfloor_comp _ _ Ey), Qfloor_Z.
    assert (E0 : ((inject_Z z) / B64.pow2 (- k) - inject_Z (z * 2 ^ k) == 0)%Q)
      by (rewrite Ey; ring).
    rewrite (Qcompare_comp _ _ E0 (1 # 2) (1 # 2) (Qeq_refl _)).
    reflexivity. }
  rewrite Em, Einv, inject_Z_mult, pow2_inject by exact Hk.
  field. lra.
Qed.

(** The rounding is that of the doubles: one tenth, and the sum of one
    tenth and two tenths against three tenths. *)
Example round53_tenth :
  Qred (B64.round53 (1 # 10)) = (3602879701896397 # 36028797018963968)%Q.
Proof. vm_compute. reflexivity. Qed.

Example round53_sum_of_tenths :
  ~ (B64.add (B64.round53 (1 # 10)) (B64.round53 (2 # 10))
     == B64.round53 (3 # 10))%Q.
Proof. vm_compute. discriminate. Qed.

(** ** The sum of two rounded means against the rounded mean of the sum *)

Lemma sum_of_means_tolerance (u a b mc mr mt s : Q) :
  (0 <= u)%Q -> (u <= 1 # 5)%Q -> (0 <= a)%Q -> (0 <= b)%Q ->
  (Qabs (mc - a) <= u * a)%Q ->
  (Qabs (mr - b) <= u * b)%Q ->
  (Qabs (mt - (a + b)) <= u * (a + b))%Q ->
  (Qabs (s - (mc + mr)) <= u * Qabs (mc + mr))%Q ->
  (Qabs (mt - s) <= 4 * u * mt)%Q.
Proof.
  intros Hu0 Hu1 Ha Hb Hc Hr Ht Hs.
  apply Qabs_Qle_condition in Hc, Hr, Ht.
  assert (Hpos : (0 <= mc + mr)%Q) by nra.
  rewrite (Qabs_pos _ Hpos) in Hs. apply Qabs_Qle_condition in Hs.
  apply Qabs_Qle_condition.
  assert (Hab : (0 <= a + b)%Q) by lra.
  assert (H1 : (mc + mr <= (1 + u) * (a + b))%Q) by nra.
  assert (H2 : ((1 - u) * (a + b) <= mc + mr)%Q) by nra.
  assert (H3 : (s <= (1 + u) * ((1 + u) * (a + b)))%Q) by nra.
  assert (H4 : ((1 - u) * ((1 - u) * (a + b)) <= s)%Q) by nra.
  assert (H5 : ((1 - u) * (a + b) <= mt)%Q) by nra.
  assert (H6 : (mt <= (1 + u) * (a + b))%Q) by nra.
  split; nra.
Qed.

(* ================================================================== *)
(** ** The hourly pattern *)

Lemma hourly_result (df : DataFrame) :
  create_hourly_patterns_df df
  = (Some (map (fun kg =>
                  Hourly.mk (fst kg)
                            (agg_mean casual (snd kg))
                            (agg_mean registered (snd kg))
                            (agg_mean cnt (snd kg)))
               (groupby hr (rows df))), df).
Proof. reflexivity. Qed.

Lemma hourly_keys (df : DataFrame) (out : list Hourly.row) :
  result create_hourly_patterns_df df = Some out ->
  map Hourly.hr out = unique_sorted (map hr (rows df)).
Proof.
  unfold result. rewrite hourly_result. simpl. intros [= <-].
  rewrite map_map. simpl. rewrite <- (groupby_keys hr).
  reflexivity.
Qed.

Lemma hourly_row (df : DataFrame) (out : list Hourly.row) (row : Hourly.row) :
  result create_hourly_patterns_df df = Some out ->
  In row out ->
  let g := filter (fun r => hr r =? Hourly.hr row) (rows df) in
  g <> [] /\
  Hourly.casual row = mean_cell (map casual g) /\
  Hourly.registered row = mean_cell (map registered g) /\
  Hourly.cnt row = mean_cell (map cnt g).
Proof.
  unfold result. rewrite hourly_result. simpl. intros [= <-] Hin.
  apply in_map_iff in Hin. destruct Hin as [[k g] [<- Hkg]].
  apply groupby_In in Hkg. destruct Hkg as [Hg [_ Hne]].
  simpl. rewrite <- group_of_Z, <- Hg.
  repeat split; auto using agg_mean_is_mean.
Qed.

(** C5: the hourly pattern has exactly one row per hour that occurs in the
    input and no other row; no hour is repeated; the rows are in ascending
    order of the hour; and the three cells of a row are the arithmetic
    means of [casual], [registered] and [cnt] over all the records of that
    hour. *)
Theorem hourly_pattern_one_row_per_hour (df : DataFrame) :
  exists out,
    result create_hourly_patterns_df df = Some out /\
    (forall h, In h (map Hourly.hr out) <-> In h (map hr (rows df))) /\
    NoDup (map Hourly.hr out) /\
    StronglySorted Z.lt (map Hourly.hr out) /\
    (forall row, In row out ->
       let g := filter (fun r => hr r =? Hourly.hr row) (rows df) in
       Hourly.casual row = mean_cell (map casual g) /\
       Hourly.registered row = mean_cell (map registered g) /\
       Hourly.cnt row = mean_cell (map cnt g)).
Proof.
  destruct (result create_hourly_patterns_df df) as [out|] eqn:E;
    [|unfold result in E; rewrite hourly_result in E; discriminate].
  exists out. split; [reflexivity|].
  pose proof (hourly_keys df out E) as Hk.
  repeat split.
  - rewrite Hk. apply unique_sorted_In.
  - rewrite Hk. apply unique_sorted_In.
  - rewrite Hk. apply sorted_NoDup, unique_sorted_sorted.
  - rewrite Hk. exact (unique_sorted_sorted (map hr (rows df))).
  - apply (hourly_row df out row E H).
  - apply (hourly_row df out row E H).
  - apply (hourly_row df out row E H).
Qed.

(** ** Means of counts in binary64 *)

Lemma sum_nonneg (l : list Z) :
  (forall x, In x l -> 0 <= x) -> 0 <= fold_right Z.add 0 l.
Proof.
  induction l as [|x l IH]; intros Hl; simpl; [lia|].
  specialize (Hl x (or_introl eq_refl)) as Hx.
  assert (0 <= fold_right Z.add 0 l) by (apply IH; intros y Hy; apply Hl; now right).
  lia.
Qed.

(** Below [2^53] the running sum of non-negative counts is exact. *)
Lemma b64_sum_exact (l : list Z) :
  forall (acc : Q) (a : Z),
    0 <= a -> (acc == inject_Z a)%Q ->
    (forall x, In x l -> 0 <= x) ->
    a + fold_right Z.add 0 l < 2 ^ 53 ->
    (fold_left B64.add (map B64.of_int l) acc
     == inject_Z (a + fold_right Z.add 0%Z l))%Q.
Proof.
  induction l as [|x l IH]; intros acc a Ha Eacc Hl Hb.
  - simpl. rewrite Z.add_0_r. exact Eacc.
  - cbn [map fold_left fold_right] in *.
    assert (Hx : 0 <= x) by (apply Hl; now left).
    assert (Hrest : 0 <= fold_right Z.add 0 l)
      by (apply sum_nonneg; intros y Hy; apply Hl; now right).
    rewrite (IH (B64.add acc (B64.of_int x)) (a + x)).
    + now rewrite Z.add_assoc.
    + lia.
    + unfold B64.add, B64.of_int.
      assert (E : (acc + B64.round53 (inject_Z x) == inject_Z (a + x))%Q).
      { rewrite round53_int by lia. rewrite Eacc, inject_Z_plus. reflexivity. }
      rewrite (round53_comp _ _ E). apply round53_int. lia.
    + intros y Hy. apply Hl. now right.
    + lia.
Qed.

(** The double that the mean of a group of counts is: the rounding of the
    exact mean. *)
Lemma b64_mean_int (l : list Z) :
  l <> [] ->
  (forall x, In x l -> 0 <= x) ->
  fold_right Z.add 0 l < 2 ^ 53 ->
  Z.of_nat (List.length l) < 2 ^ 53 ->
  B64.mean_int l = B64.round_cell (mean_cell l).
Proof.
  intros Hne Hl Hs Hn. destruct l as [|x l]; [congruence|].
  unfold B64.mean_int, mean_cell, B64.round_cell, B64.div, B64.sum.
  f_equal. apply round53_comp.
  rewrite (b64_sum_exact (x :: l) 0%Q 0); try (reflexivity || lia || assumption).
  unfold B64.of_int. rewrite round53_int by lia.
  rewrite Qred_correct. unfold arith_mean. rewrite Z.add_0_l. reflexivity.
Qed.

Lemma sum_filter_le {R : Type} (f h : R -> Z) (p : R -> bool) (l : list R) :
  (forall r, In r l -> 0 <= f r <= h r) ->
  0 <= fold_right Z.add 0 (map f (filter p l)) <= fold_right Z.add 0 (map h l).
Proof.
  induction l as [|x l IH]; intros Hl; simpl; [lia|].
  specialize (Hl x (or_introl eq_refl)) as Hx.
  assert (IH' : 0 <= fold_right Z.add 0 (map f (filter p l))
                <= fold_right Z.add 0 (map h l))
    by (apply IH; intros y Hy; apply Hl; now right).
  destruct (p x); simpl; lia.
Qed.

Lemma filter_length_le {R : Type} (p : R -> bool) (l : list R) :
  (List.length (filter p l) <= List.length l)%nat.
Proof.
  induction l as [|x l IH]; simpl; [lia|]. destruct (p x); simpl; lia.
Qed.

Lemma arith_mean_nonneg (l : list Z) :
  (forall x, In x l -> 0 <= x) -> (0 <= arith_mean l)%Q.
Proof.
  intros Hl. unfold arith_mean, Qdiv. apply Qmult_le_0_compat.
  - rewrite <- (Zle_Qle 0). now apply sum_nonneg.
  - apply Qinv_le_0_compat. rewrite <- (Zle_Qle 0). lia.
Qed.

(** The cells of a group of the hourly pattern, as doubles. *)
Lemma hourly_b64_cell (field : Rental -> Z) (df : DataFrame) (k : Z) :
  (forall r, In r (rows df) -> 0 <= field r <= cnt r) ->
  fold_right Z.add 0 (map cnt (rows df)) < 2 ^ 53 ->
  Z.of_nat (List.length (rows df)) < 2 ^ 53 ->
  group_of hr k (rows df) <> [] ->
  B64.mean_int (map field (group_of hr k (rows df)))
  = B64.round_cell (agg_mean field (group_of hr k (rows df))).
Proof.
  intros Hf Hs Hn Hne. rewrite agg_mean_is_mean by exact Hne.
  apply b64_mean_int.
  - destruct (group_of hr k (rows df)); [congruence | discriminate].
  - intros x Hx. apply in_map_iff in Hx. destruct Hx as [r [<- Hr]].
    apply group_of_In in Hr. apply Hf, Hr.
  - pose proof (sum_filter_le field cnt (fun r => keqb (hr r) k) (rows df) Hf).
    unfold group_of. lia.
  - rewrite length_map. unfold group_of.
    pose proof (filter_length_le (fun r => keqb (hr r) k) (rows df)). lia.
Qed.

Lemma hourly_b64_result (df : DataFrame) (out : list Hourly.row) :
  (forall r, In r (rows df) -> cnt r = casual r + registered r) ->
  (forall r, In r (rows df) -> 0 <= casual r /\ 0 <= registered r) ->
  fold_right Z.add 0 (map cnt (rows df)) < 2 ^ 53 ->
  Z.of_nat (List.length (rows df)) < 2 ^ 53 ->
  result create_hourly_patterns_df df = Some out ->
  result create_hourly_patterns_df_b64 df = Some (map round_hourly out).
Proof.
  intros Hinv Hpos Hs Hn. unfold result. rewrite hourly_result. cbn [fst].
  intros [= <-]. unfold create_hourly_patterns_df_b64, bind, self, ret.
  cbn [fst]. f_equal. rewrite map_map. apply map_ext_in.
  intros [k g] Hkg. apply groupby_In in Hkg. destruct Hkg as [-> [_ Hne]].
  unfold round_hourly. cbn [fst snd Hourly.hr Hourly.casual Hourly.registered
                              Hourly.cnt].
  rewrite (hourly_b64_cell casual), (hourly_b64_cell registered),
    (hourly_b64_cell cnt); auto;
    intros r Hr; destruct (Hpos r Hr); specialize (Hinv r Hr); lia.
Qed.

(** C9: when every record satisfies [cnt = casual + registered], every row
    of the hourly pattern holds three numbers and satisfies it for the
    means: exactly over rational arithmetic, and within a relative
    tolerance of [2^-51] for the doubles that the code computes (counts not
    negative, their total and the number of records below [2^53], so that
    the sums of the counts are exact); a non-empty input gives a non-empty
    pattern. *)
Theorem hourly_pattern_total_is_sum (df : DataFrame) :
  (forall r, In r (rows df) -> cnt r = casual r + registered r) ->
  exists out,
    result create_hourly_patterns_df df = Some out /\
    (rows df <> [] -> out <> []) /\
    (forall row, In row out ->
       (exists c r t,
          Hourly.casual row = Float.Fin c /\
          Hourly.registered row = Float.Fin r /\
          Hourly.cnt row = Float.Fin t /\ (t == c + r)%Q) /\
       Hourly.cnt row
       = Float.add (Hourly.casual row) (Hourly.registered row)) /\
    ((forall r, In r (rows df) -> 0 <= casual r /\ 0 <= registered r) ->
     fold_right Z.add 0 (map cnt (rows df)) < 2 ^ 53 ->
     Z.of_nat (List.length (rows df)) < 2 ^ 53 ->
     result create_hourly_patterns_df_b64 df = Some (map round_hourly out) /\
     (forall row, In row (map round_hourly out) ->
        exists c r t,
          Hourly.casual row = Float.Fin c /\
          Hourly.registered row = Float.Fin r /\
          Hourly.cnt row = Float.Fin t /\
          (Qabs (t - B64.add c r) <= (1 # 2 ^ 51) * t)%Q)).
Proof.
  intros Hinv.
  destruct (result create_hourly_patterns_df df) as [out|] eqn:E;
    [|unfold result in E; rewrite hourly_result in E; discriminate].
  exists out. split; [reflexivity|]. split; [|split].
  - intros Hne Hout. pose proof (hourly_keys df out E) as Hk.
    destruct (rows df) as [|r rs] eqn:Er; [congruence|].
    assert (Hin : In (hr r) (map Hourly.hr out)).
    { rewrite Hk. apply unique_sorted_In. now left. }
    rewrite Hout in Hin. exact Hin.
  - intros row Hin.
    destruct (hourly_row df out row E Hin) as [_ [Hc [Hr Ht]]].
    set (g := filter (fun r => hr r =? Hourly.hr row) (rows df)) in *.
    assert (Hg : forall r, In r g -> cnt r = casual r + registered r)
      by (intros r Hr'; apply filter_In in Hr'; apply Hinv, Hr').
    split.
    + eexists. eexists. eexists. repeat (split; [eassumption|]).
      rewrite !Qred_correct. apply arith_mean_add.
      * now rewrite !length_map.
      * now apply sum_map_add.
      * now rewrite !length_map.
    + rewrite Hc, Hr, Ht. apply mean_cell_add.
      * now rewrite !length_map.
      * now apply sum_map_add.
      * now rewrite !length_map.
  - intros Hpos Hs Hn. split.
    + now apply hourly_b64_result.
    + intros row Hin. apply in_map_iff in Hin.
      destruct Hin as [row0 [<- Hin]].
      destruct (hourly_row df out row0 E Hin) as [_ [Hc [Hr Ht]]].
      set (g := filter (fun r => hr r =? Hourly.hr row0) (rows df)) in *.
      assert (Hg : forall r, In r g ->
                cnt r = casual r + registered r /\
                0 <= casual r /\ 0 <= registered r).
      { intros r Hr'. apply filter_In in Hr'. destruct Hr' as [Hr' _].
        split; [now apply Hinv | now apply Hpos]. }
      unfold round_hourly.
      cbn [Hourly.casual Hourly.registered Hourly.cnt].
      rewrite Hc, Hr, Ht. unfold mean_cell, B64.round_cell.
      eexists. eexists. eexists. repeat (split; [reflexivity|]).
      set (a := Qred (arith_mean (map casual g))).
      set (b := Qred (arith_mean (map registered g))).
      set (t := Qred (arith_mean (map cnt g))).
      assert (Ha : (0 <= a)%Q).
      { unfold a. rewrite Qred_correct. apply arith_mean_nonneg.
        intros x Hx. apply in_map_iff in Hx. destruct Hx as [r [<- Hr']].
        apply Hg, Hr'. }
      assert (Hb : (0 <= b)%Q).
      { unfold b. rewrite Qred_correct. apply arith_mean_nonneg.
        intros x Hx. apply in_map_iff in Hx. destruct Hx as [r [<- Hr']].
        apply Hg, Hr'. }
      assert (Et : (t == a + b)%Q).
      { unfold t, a, b. rewrite !Qred_correct. apply arith_mean_add.
        - now rewrite !length_map.
        - apply sum_map_add. intros r Hr'. apply Hg, Hr'.
        - now rewrite !length_map. }
      assert (Hu : (4 * (1 # 2 ^ 53) == 1 # 2 ^ 51)%Q) by reflexivity.
      rewrite <- Hu.
      apply (sum_of_means_tolerance (1 # 2 ^ 53) a b
               (B64.round53 a) (B64.round53 b)).
      * discriminate.
      * discriminate.
      * exact Ha.
      * exact Hb.
      * pose proof (round53_error a) as H.
        rewrite (Qabs_pos a Ha) in H. exact H.
      * pose proof (round53_error b) as H.
        rewrite (Qabs_pos b Hb) in H. exact H.
      * assert (Ht0 : (0 <= t)%Q) by (rewrite Et; lra).
        pose proof (round53_error t) as H.
        rewrite (Qabs_pos t Ht0) in H. rewrite <- Et. exact H.
      * unfold B64.add. apply round53_error.
Qed.

Lemma hourly_pattern_total_is_sum_witness :
  exists out,
    result create_hourly_patterns_df hourly_sample = Some out /\
    (forall row, In row out ->
       Hourly.cnt row
       = Float.add (Hourly.casual row) (Hourly.registered row)) /\
    result create_hourly_patterns_df_b64 hourly_sample
    = Some (map round_hourly out) /\
    (forall row, In row (map round_hourly out) ->
       exists c r t,
         Hourly.casual row = Float.Fin c /\
         Hourly.registered row = Float.Fin r /\
         Hourly.cnt row = Float.Fin t /\
         (Qabs (t - B64.add c r) <= (1 # 2 ^ 51) * t)%Q).
Proof.
  destruct (hourly_pattern_total_is_sum hourly_sample)
    as [out [E [_ [Hexact Hb64]]]].
  - intros r Hr. simpl in Hr.
    repeat (destruct Hr as [<- | Hr]; [reflexivity|]). contradiction.
  - exists out. split; [exact E|]. split.
    + intros row Hin. apply Hexact, Hin.
    + apply Hb64.
      * intros r Hr. simpl in Hr.
        repeat (destruct Hr as [<- | Hr]; [simpl; lia|]). contradiction.
      * reflexivity.
      * reflexivity.
Defined.

(* ================================================================== *)
(** ** The weekday pattern *)

Lemma daily_result (df : DataFrame) :
  create_daily_patterns_df df
  = (Some (map (fun kg =>
                  Daily.mk (fst kg)
                           (agg_mean casual (snd kg))
                           (agg_mean registered (snd kg))
                           (agg_mean cnt (snd kg))
                           (dict_get (fst kg) day_names))
               (groupby weekday (rows df))), df).
Proof. reflexivity. Qed.

Lemma day_names_total (k : Z) :
  0 <= k <= 6 -> exists s, dict_get k day_names = Some s.
Proof.
  intros Hk.
  assert (E : k = 0 \/ k = 1 \/ k = 2 \/ k = 3 \/ k = 4 \/ k = 5 \/ k = 6)
    by lia.
  repeat (destruct E as [-> | E]; [eexists; reflexivity|]).
  subst k. eexists; reflexivity.
Qed.

(** C6: the weekday pattern has one row per weekday that occurs, in
    ascending order; the row carries the means of the records of that
    weekday and the label that the fixed table Sunday..Saturday gives to its
    key; and the three-record example yields the two stated rows. *)
Theorem weekday_pattern_labels (df : DataFrame) :
  dict_get 0 day_names = Some "Sunday"%string /\
  dict_get 1 day_names = Some "Monday"%string /\
  dict_get 2 day_names = Some "Tuesday"%string /\
  dict_get 3 day_names = Some "Wednesday"%string /\
  dict_get 4 day_names = Some "Thursday"%string /\
  dict_get 5 day_names = Some "Friday"%string /\
  dict_get 6 day_names = Some "Saturday"%string /\
  (exists out,
     result create_daily_patterns_df df = Some out /\
     (forall d, In d (map Daily.weekday out) <-> In d (map weekday (rows df))) /\
     StronglySorted Z.lt (map Daily.weekday out) /\
     (forall row, In row out ->
        let g := filter (fun r => weekday r =? Daily.weekday row) (rows df) in
        Daily.day_name row = dict_get (Daily.weekday row) day_names /\
        Daily.casual row = mean_cell (map casual g) /\
        Daily.registered row = mean_cell (map registered g) /\
        Daily.cnt row = mean_cell (map cnt g))) /\
  option_map (map daily_tuple) (result create_daily_patterns_df weekday_sample)
  = Some [(0, Some "Sunday"%string,
           Float.of_Z 15, Float.of_Z 85, Float.of_Z 100);
          (1, Some "Monday"%string,
           Float.of_Z 5, Float.of_Z 45, Float.of_Z 50)].
Proof.
  repeat (split; [reflexivity|]). split; [|reflexivity].
  unfold result. rewrite daily_result. cbn [fst].
  remember (map (fun kg =>
                   Daily.mk (fst kg)
                            (agg_mean casual (snd kg))
                            (agg_mean registered (snd kg))
                            (agg_mean cnt (snd kg))
                            (dict_get (fst kg) day_names))
                (groupby weekday (rows df))) as out eqn:Eout.
  assert (Hk : map Daily.weekday out = unique_sorted (map weekday (rows df))).
  { subst out. rewrite map_map. simpl. rewrite <- (groupby_keys weekday).
    reflexivity. }
  exists out. split; [reflexivity|].
  split; [|split].
  - intros d. rewrite Hk. apply unique_sorted_In.
  - rewrite Hk. exact (unique_sorted_sorted (map weekday (rows df))).
  - intros row Hin. subst out.
    apply in_map_iff in Hin. destruct Hin as [[k g] [<- Hkg]].
    apply groupby_In in Hkg. destruct Hkg as [Hg [_ Hne]].
    simpl. rewrite <- group_of_Z, <- Hg.
    repeat split; auto using agg_mean_is_mean.
Qed.

(* ================================================================== *)
(** ** The weather pattern *)

Lemma weather_result (df : DataFrame) :
  create_weather_impact_df df
  = (Some (map (fun kg =>
                  Weather.mk (fst kg)
                             (agg_mean casual (snd kg))
                             (agg_mean registered (snd kg))
                             (agg_mean cnt (snd kg))
                             (dict_get (fst kg) weather_descs))
               (groupby weathersit (rows df))), df).
Proof. reflexivity. Qed.

Lemma weather_descs_unmapped (k : Z) :
  ~ (1 <= k <= 4) -> dict_get k weather_descs = None.
Proof.
  intros Hk. unfold weather_descs, dict_get.
  destruct (Z.eqb_spec 1 k); [lia|]. destruct (Z.eqb_spec 2 k); [lia|].
  destruct (Z.eqb_spec 3 k); [lia|]. destruct (Z.eqb_spec 4 k); [lia|].
  reflexivity.
Qed.

(** C7, as the code has it: a record whose weather code is outside 1..4
    does not make the aggregation fail; the code is grouped as a key of its
    own, with the means of its records, and its label is the missing value
    (there is no fallback label). *)
Theorem weather_pattern_unmapped_key (df : DataFrame) (r : Rental) :
  In r (rows df) ->
  ~ (1 <= weathersit r <= 4) ->
  exists out row,
    result create_weather_impact_df df = Some out /\
    In row out /\
    Weather.weathersit row = weathersit r /\
    Weather.weather_desc row = None /\
    let g := filter (fun x => weathersit x =? weathersit r) (rows df) in
    Weather.casual row = mean_cell (map casual g) /\
    Weather.registered row = mean_cell (map registered g) /\
    Weather.cnt row = mean_cell (map cnt g).
Proof.
  intros Hin Hk. unfold result. rewrite weather_result. cbn [fst].
  assert (Hkey : In (weathersit r) (unique_sorted (map weathersit (rows df)))).
  { apply unique_sorted_In. apply in_map. exact Hin. }
  assert (Hkg : In (weathersit r, group_of weathersit (weathersit r) (rows df))
                   (groupby weathersit (rows df))).
  { unfold groupby. apply in_map_iff. exists (weathersit r). auto. }
  eexists. eexists. split; [reflexivity|]. split.
  - apply in_map_iff. eexists. split; [reflexivity | exact Hkg].
  - simpl. split; [reflexivity|]. split; [now apply weather_descs_unmapped|].
    apply groupby_In in Hkg. destruct Hkg as [_ [_ Hne]].
    rewrite <- group_of_Z. repeat split; auto using agg_mean_is_mean.
Qed.

Lemma weather_pattern_unmapped_key_witness :
  exists out row,
    result create_weather_impact_df weather_sample = Some out /\
    In row out /\
    Weather.weathersit row = 5 /\
    Weather.weather_desc row = None /\
    Weather.casual row = Float.of_Z 1 /\
    Weather.registered row = Float.of_Z 2 /\
    Weather.cnt row = Float.of_Z 3.
Proof.
  destruct (weather_pattern_unmapped_key weather_sample
              (mkRental (mkDate 2011 1 1) 8 6 1 0 5 1 2 3))
    as [out [row [E [Hin [Hw [Hd [Hc [Hr Ht]]]]]]]].
  - simpl. right. left. reflexivity.
  - simpl. lia.
  - exists out, row. repeat split; assumption.
Defined.

(** The claim as written fails on the frame with one record of code 5: the
    row of that code carries no label at all. *)
Lemma weather_pattern_no_fallback_label :
  exists out,
    result create_weather_impact_df weather_sample = Some out /\
    (exists row, In row out /\ Weather.weathersit row = 5) /\
    ~ (exists row s, In row out /\ Weather.weathersit row = 5 /\
                     Weather.weather_desc row = Some s).
Proof.
  eexists. split; [reflexivity|]. split.
  - eexists. split; [right; left; reflexivity | reflexivity].
  - intros [row [s [Hin [Hw Hd]]]]. simpl in Hin.
    destruct Hin as [<- | [<- | []]]; simpl in Hw, Hd; discriminate.
Qed.

(* ================================================================== *)
(** ** The monthly trend *)

Lemma StronglySorted_impl {A : Type} (R1 R2 : A -> A -> Prop) (l : list A) :
  (forall a b, R1 a b -> R2 a b) ->
  StronglySorted R1 l -> StronglySorted R2 l.
Proof.
  intros HR. induction 1 as [|a l HS IH HF]; constructor; [exact IH|].
  eapply Forall_impl; [|exact HF]. intros b. apply HR.
Qed.

Lemma monthly_result (df : DataFrame) :
  monthly_trends df
  = (Some (map (fun kg =>
                  Monthly.mk (fst (fst kg)) (snd (fst kg))
                             (agg_mean casual (snd kg))
                             (agg_mean registered (snd kg))
                             (agg_mean cnt (snd kg)))
               (groupby (fun r => (yr r, mnth r)) (rows df))), df).
Proof. reflexivity. Qed.

Lemma group_of_pair (y m : Z) (rs : list Rental) :
  group_of (fun r => (yr r, mnth r)) (y, m) rs = records_of_month y m rs.
Proof.
  unfold group_of, records_of_month. apply filter_ext. intros r.
  apply keqb_pair.
Qed.

Lemma monthly_keys (df : DataFrame) (out : list Monthly.row) :
  result monthly_trends df = Some out ->
  map (fun row => (Monthly.yr row, Monthly.mnth row)) out
  = unique_sorted (map (fun r => (yr r, mnth r)) (rows df)).
Proof.
  unfold result. rewrite monthly_result. cbn [fst]. intros [= <-].
  rewrite map_map. cbn [Monthly.yr Monthly.mnth].
  rewrite <- (groupby_keys (fun r => (yr r, mnth r))).
  apply map_ext. intros [[y m] g]. reflexivity.
Qed.

Lemma monthly_row (df : DataFrame) (out : list Monthly.row) (row : Monthly.row) :
  result monthly_trends df = Some out ->
  In row out ->
  let g := records_of_month (Monthly.yr row) (Monthly.mnth row) (rows df) in
  g <> [] /\
  Monthly.casual row = mean_cell (map casual g) /\
  Monthly.registered row = mean_cell (map registered g) /\
  Monthly.cnt row = mean_cell (map cnt g).
Proof.
  unfold result. rewrite monthly_result. cbn [fst]. intros [= <-] Hin.
  apply in_map_iff in Hin. destruct Hin as [[[y m] g] [<- Hkg]].
  apply groupby_In in Hkg. destruct Hkg as [Hg [_ Hne]].
  cbn. rewrite <- group_of_pair, <- Hg.
  repeat split; auto using agg_mean_is_mean.
Qed.

(** The monthly trend does not depend on the order of the input. *)

Section SortedUnique.

Context {K : Type} `{KeyOrderLaws K}.

Lemma sorted_ext (l1 l2 : list K) :
  StronglySorted klt l1 -> StronglySorted klt l2 ->
  (forall x, In x l1 <-> In x l2) -> l1 = l2.
Proof.
  intros H1. revert l2.
  induction H1 as [|a l1 HS1 IH HF1]; intros l2 H2 Hin.
  - destruct l2 as [|b l2]; [reflexivity|].
    exfalso. apply (proj2 (Hin b)). now left.
  - destruct H2 as [|b l2 HS2 HF2].
    + exfalso. apply (proj1 (Hin a)). now left.
    + rewrite Forall_forall in HF1, HF2.
      assert (Eab : a = b).
      { destruct (proj1 (Hin a) (or_introl eq_refl)) as [E|Ha]; [now symmetry|].
        destruct (proj2 (Hin b) (or_introl eq_refl)) as [E|Hb]; [exact E|].
        exfalso. apply (klt_irrefl a).
        exact (kcmp_trans _ _ _ (HF1 b Hb) (HF2 a Ha)). }
      subst b. f_equal. apply IH; [exact HS2|].
      intros x. split; intros Hx.
      * destruct (proj1 (Hin x) (or_intror Hx)) as [E|Hx']; [|exact Hx'].
        subst x. exfalso. exact (klt_irrefl a (HF1 a Hx)).
      * destruct (proj2 (Hin x) (or_intror Hx)) as [E|Hx']; [|exact Hx'].
        subst x. exfalso. exact (klt_irrefl a (HF2 a Hx)).
Qed.

Lemma unique_sorted_perm (l1 l2 : list K) :
  Permutation l1 l2 -> unique_sorted l1 = unique_sorted l2.
Proof.
  intros HP. apply sorted_ext; try apply unique_sorted_sorted.
  intros x. rewrite !unique_sorted_In.
  split; apply Permutation_in; [exact HP | now symmetry].
Qed.

End SortedUnique.

Lemma filter_perm {A : Type} (p : A -> bool) (l1 l2 : list A) :
  Permutation l1 l2 -> Permutation (filter p l1) (filter p l2).
Proof.
  induction 1 as [|x l1 l2 HP IH|x y l|l1 l2 l3 HP1 IH1 HP2 IH2]; simpl.
  - constructor.
  - destruct (p x); [now constructor | exact IH].
  - destruct (p x), (p y); try reflexivity. apply perm_swap.
  - now transitivity (filter p l2).
Qed.

Lemma sum_perm (l1 l2 : list Z) :
  Permutation l1 l2 -> fold_right Z.add 0 l1 = fold_right Z.add 0 l2.
Proof.
  induction 1 as [|x l1 l2 HP IH|x y l|l1 l2 l3 HP1 IH1 HP2 IH2]; simpl; lia.
Qed.

Lemma mean_cell_perm (l1 l2 : list Z) :
  Permutation l1 l2 -> mean_cell l1 = mean_cell l2.
Proof.
  intros HP. unfold mean_cell, arith_mean.
  now rewrite (sum_perm l1 l2 HP), (Permutation_length HP).
Qed.

Lemma agg_mean_perm {R : Type} (field : R -> Z) (g1 g2 : list R) :
  Permutation g1 g2 -> agg_mean field g1 = agg_mean field g2.
Proof.
  intros HP. destruct g1 as [|x g1].
  - apply Permutation_nil in HP. now subst g2.
  - assert (Hne : g2 <> []).
    { intros ->. symmetry in HP. apply Permutation_nil in HP. discriminate. }
    rewrite !agg_mean_is_mean by (assumption || discriminate).
    apply mean_cell_perm, Permutation_map, HP.
Qed.

Lemma monthly_trends_perm (df df' : DataFrame) :
  Permutation (rows df) (rows df') ->
  result monthly_trends df' = result monthly_trends df.
Proof.
  intros HP. unfold result. rewrite !monthly_result. cbn [fst]. f_equal.
  unfold groupby. rewrite !map_map.
  rewrite (unique_sorted_perm _ _
             (Permutation_map (fun r => (yr r, mnth r)) HP)).
  apply map_ext. intros k. cbn [fst snd]. unfold group_of.
  f_equal; apply agg_mean_perm, filter_perm; now symmetry.
Qed.

(** C8: whatever the order of the input rows, the inline monthly trend has
    one row per pair (yr, mnth) that occurs, carrying the means of the
    records of that pair, and its rows are in chronological order: by yr,
    then by mnth; a reordering of the input rows gives the same table. *)
Theorem monthly_trend_sorted (df : DataFrame) :
  exists out,
    result monthly_trends df = Some out /\
    (forall y m,
       In (y, m) (map (fun row => (Monthly.yr row, Monthly.mnth row)) out)
       <-> In (y, m) (map (fun r => (yr r, mnth r)) (rows df))) /\
    StronglySorted chrono_lt out /\
    (forall row, In row out ->
       let g := records_of_month (Monthly.yr row) (Monthly.mnth row) (rows df) in
       Monthly.casual row = mean_cell (map casual g) /\
       Monthly.registered row = mean_cell (map registered g) /\
       Monthly.cnt row = mean_cell (map cnt g)) /\
    (forall df', Permutation (rows df) (rows df') ->
       result monthly_trends df' = Some out).
Proof.
  destruct (result monthly_trends df) as [out|] eqn:E;
    [|unfold result in E; rewrite monthly_result in E; discriminate].
  exists out. split; [reflexivity|].
  pose proof (monthly_keys df out E) as Hk.
  split; [|split; [|split]].
  - intros y m. rewrite Hk. apply unique_sorted_In.
  - pose proof (unique_sorted_sorted
                  (map (fun r => (yr r, mnth r)) (rows df))) as HS.
    rewrite <- Hk in HS. apply (proj1 (StronglySorted_map _ _ _)) in HS.
    eapply StronglySorted_impl; [|exact HS].
    intros a b Hab. apply klt_pair in Hab. exact Hab.
  - intros row Hin. destruct (monthly_row df out row E Hin) as [_ Hm].
    exact Hm.
  - intros df' HP. rewrite (monthly_trends_perm df df' HP). exact E.
Qed.

(* ================================================================== *)
(** ** Item assignment *)

Lemma lookup_assign (n name : string) (col : Column)
  (cs : list (string * Column)) :
  lookup n (assign name col cs)
  = if String.eqb name n then Some col else lookup n cs.
Proof.
  induction cs as [|[m c] cs IH]; simpl.
  - reflexivity.
  - destruct (String.eqb m name) eqn:Em; simpl.
    + apply String.eqb_eq in Em. subst m.
      destruct (String.eqb name n); reflexivity.
    + rewrite IH. destruct (String.eqb m n) eqn:En; [|reflexivity].
      apply String.eqb_eq in En. subst m. now rewrite String.eqb_sym, Em.
Qed.

Lemma helper_result (df : DataFrame) :
  create_monthly_trends_df df
  = (Some (map (fun kg =>
                  MonthlyYm.mk (period_str (fst (fst kg)))
                               (snd (fst kg))
                               (agg_mean (fun pr => cnt (snd pr)) (snd kg)))
               (groupby (fun pr => (fst pr, yr (snd pr)))
                        (combine (map to_period (map dteday (rows df)))
                                 (rows df)))),
     {| rows := rows df;
        assigned := assign "ym"
                      (PeriodCol (map to_period (map dteday (rows df))))
                      (assigned df) |}).
Proof.
  unfold create_monthly_trends_df, bind, getcol, setitem, getitem, self, ret.
  cbn [rows assigned]. rewrite lookup_assign. reflexivity.
Qed.

Lemma monthly_section_result (df : DataFrame) :
  exists mt,
    result monthly_trends df = Some mt /\
    result monthly_section df = Some (mt, pertumbuhan_tahunan mt).
Proof.
  unfold result, monthly_section, bind. rewrite helper_result.
  rewrite !monthly_result. cbn [fst rows]. eexists. split; reflexivity.
Qed.

(* ================================================================== *)
(** ** The growth figures *)

Lemma filter_map_comm {A B : Type} (P : B -> bool) (f : A -> B) (l : list A) :
  filter P (map f l) = map f (filter (fun a => P (f a)) l).
Proof.
  induction l as [|x l IH]; simpl; [reflexivity|].
  rewrite IH. destruct (P (f x)); reflexivity.
Qed.

Lemma pair_mono (y a b : Z) : kcmp (y, a) (y, b) = kcmp a b.
Proof. simpl. unfold lex_compare. simpl. now rewrite Z.compare_refl. Qed.

(** The keys of the monthly trend that belong to one year. *)
Lemma year_keys (y : Z) (rs : list Rental) :
  filter (fun k => fst k =? y)
         (unique_sorted (map (fun r => (yr r, mnth r)) rs))
  = map (pair y) (months_of_year y rs).
Proof.
  rewrite filter_unique_sorted, filter_map_comm. cbn [fst].
  unfold months_of_year.
  rewrite <- (unique_sorted_map (pair y) (pair_mono y)).
  f_equal. rewrite map_map. apply map_ext_in.
  intros r Hr. apply filter_In in Hr. destruct Hr as [_ Hy].
  apply Z.eqb_eq in Hy. now rewrite Hy.
Qed.

Lemma year_mean_monthly (df : DataFrame) (mt : list Monthly.row) (y : Z) :
  result monthly_trends df = Some mt ->
  year_mean Monthly.casual y mt = mean_of_monthly_means casual y (rows df) /\
  year_mean Monthly.registered y mt
  = mean_of_monthly_means registered y (rows df) /\
  year_mean Monthly.cnt y mt = mean_of_monthly_means cnt y (rows df).
Proof.
  unfold result. rewrite monthly_result. cbn [fst]. intros [= <-].
  unfold year_mean, mean_of_monthly_means, groupby.
  rewrite map_map. cbn [fst snd].
  rewrite !filter_map_comm. cbn [Monthly.yr].
  rewrite (year_keys y (rows df)). rewrite !map_map.
  cbn [Monthly.casual Monthly.registered Monthly.cnt fst snd].
  repeat split; f_equal; apply map_ext; intros m;
    now rewrite group_of_pair.
Qed.

(** C1, as the code has it: each growth figure is
    [(mean1 / mean0 - 1) * 100] where [mean1] and [mean0] are, for the years
    1 and 0, the mean over the months of that year of the monthly means of
    the count (each monthly mean being the mean over the records of that
    month). *)
Theorem growth_is_ratio_of_monthly_means (df : DataFrame) :
  exists mt,
    result monthly_trends df = Some mt /\
    result monthly_section df
    = Some (mt,
            [("casual"%string,
              pct_change (mean_of_monthly_means casual 1 (rows df))
                         (mean_of_monthly_means casual 0 (rows df)));
             ("registered"%string,
              pct_change (mean_of_monthly_means registered 1 (rows df))
                         (mean_of_monthly_means registered 0 (rows df)))]).
Proof.
  destruct (monthly_section_result df) as [mt [Hmt Hsec]].
  exists mt. split; [exact Hmt|]. rewrite Hsec.
  unfold pertumbuhan_tahunan, growth, pct_change.
  destruct (year_mean_monthly df mt 1 Hmt) as [-> [-> _]].
  destruct (year_mean_monthly df mt 0 Hmt) as [-> [-> _]].
  reflexivity.
Qed.

(** The claim as written (means over all the records of the year) fails on
    [growth_sample]: the code reports 150 percent for both counts, the
    ratio of the record means gives 75 percent. *)
Lemma growth_differs_from_record_means :
  exists mt g,
    result monthly_section growth_sample = Some (mt, g) /\
    g = [("casual"%string, Float.of_Z 150);
         ("registered"%string, Float.of_Z 150)] /\
    pct_change (raw_year_mean casual 1 (rows growth_sample))
               (raw_year_mean casual 0 (rows growth_sample))
    = Float.of_Z 75 /\
    pct_change (raw_year_mean registered 1 (rows growth_sample))
               (raw_year_mean registered 0 (rows growth_sample))
    = Float.of_Z 75 /\
    g <> [("casual"%string,
           pct_change (raw_year_mean casual 1 (rows growth_sample))
                      (raw_year_mean casual 0 (rows growth_sample)));
          ("registered"%string,
           pct_change (raw_year_mean registered 1 (rows growth_sample))
                      (raw_year_mean registered 0 (rows growth_sample)))].
Proof.
  eexists. eexists. split; [vm_compute; reflexivity|].
  split; [reflexivity|]. split; [vm_compute; reflexivity|].
  split; [vm_compute; reflexivity|].
  vm_compute. discriminate.
Qed.

Lemma sign_zero (q : Q) : (q == 0)%Q -> Float.sign q = Eq.
Proof.
  unfold Qeq, Float.sign. simpl. intros Hq.
  apply Z.compare_eq_iff. lia.
Qed.

(** C2, as the code has it: the growth computation returns for every input;
    where the year-0 mean of a figure is zero its growth is never a finite
    number (so never zero): it is NaN when the year-1 mean is zero or
    undefined, and an infinity of the sign of the year-1 mean otherwise. *)
Theorem growth_over_zero_base (df : DataFrame) :
  exists mt,
    result monthly_section df = Some (mt, pertumbuhan_tahunan mt) /\
    forall (field : Monthly.row -> Float.t) (q : Q),
      year_mean field 0 mt = Float.Fin q -> (q == 0)%Q ->
      growth field mt = zero_base_growth (year_mean field 1 mt) /\
      (forall x, growth field mt <> Float.Fin x).
Proof.
  destruct (monthly_section_result df) as [mt [_ Hsec]].
  exists mt. split; [exact Hsec|].
  intros field q H0 Hq. unfold growth. rewrite H0.
  pose proof (sign_zero q Hq) as Hs.
  destruct (year_mean field 1 mt) as [x| | |]; simpl; rewrite ?Hs.
  - destruct (Float.sign x); simpl; split; (reflexivity || discriminate).
  - split; [reflexivity | discriminate].
  - split; [reflexivity | discriminate].
  - split; [reflexivity | discriminate].
Qed.

Lemma growth_over_zero_base_witness :
  exists mt,
    result monthly_section zero_base_sample
    = Some (mt, pertumbuhan_tahunan mt) /\
    growth Monthly.casual mt = Float.PInf.
Proof.
  destruct (growth_over_zero_base zero_base_sample) as [mt [Hsec Hz]].
  exists mt. split; [exact Hsec|].
  assert (Hmt : mt = [Monthly.mk 0 1 (Float.of_Z 0) (Float.of_Z 5)
                                 (Float.of_Z 5);
                      Monthly.mk 1 1 (Float.of_Z 7) (Float.of_Z 9)
                                 (Float.of_Z 16)]).
  { vm_compute in Hsec. injection Hsec as Hmt _. symmetry. exact Hmt. }
  destruct (Hz Monthly.casual 0%Q) as [Hg _].
  - rewrite Hmt. vm_compute. reflexivity.
  - reflexivity.
  - rewrite Hg, Hmt. vm_compute. reflexivity.
Defined.

(** The claim as written fails on [zero_base_sample]: the year-0 mean of
    the casual count is zero and the casual growth is plus infinity. *)
Lemma growth_over_zero_base_is_infinite :
  exists mt g,
    result monthly_section zero_base_sample = Some (mt, g) /\
    raw_year_mean casual 0 (rows zero_base_sample) = Float.zero /\
    year_mean Monthly.casual 0 mt = Float.zero /\
    g = [("casual"%string, Float.PInf);
         ("registered"%string, Float.of_Z 80)].
Proof.
  eexists. eexists. split; [vm_compute; reflexivity|].
  repeat split; vm_compute; reflexivity.
Qed.

(* ================================================================== *)
(** ** The lag table *)

Lemma lag_result (df : DataFrame) :
  create_lag_analysis_df df
  = (Some (select_frame (map (fun x => 3 <=? x) (map weathersit (rows df)))
                        (lag_state df)),
     lag_state df).
Proof. reflexivity. Qed.

Lemma shift_1_cons (f : Rental -> Z) (r : Rental) (t : list Rental) :
  shift (-1) (map f (r :: t)) = count_at f t 0 :: shift (-1) (map f t).
Proof.
  unfold shift, count_at. destruct t as [|y t]; reflexivity.
Qed.

Lemma shift_2_cons (f : Rental -> Z) (r : Rental) (t : list Rental) :
  shift (-2) (map f (r :: t)) = count_at f t 1 :: shift (-2) (map f t).
Proof.
  unfold shift, count_at. destruct t as [|y [|z t]]; reflexivity.
Qed.

Lemma zip_lag_shift (rs : list Rental) :
  zip_lag rs (shift (-1) (map cnt rs)) (shift (-2) (map cnt rs))
             (shift (-1) (map casual rs)) (shift (-2) (map casual rs))
             (shift (-1) (map registered rs)) (shift (-2) (map registered rs))
  = lag_tails rs.
Proof.
  induction rs as [|r t IH]; [reflexivity|].
  rewrite !shift_1_cons, !shift_2_cons. unfold zip_lag in *.
  cbn [combine map lag_tails]. now rewrite IH.
Qed.

Lemma select_nil {A : Type} (mask : list bool) : select mask (@nil A) = [].
Proof. destruct mask; reflexivity. Qed.

Lemma select_map {A B : Type} (f : A -> B) (mask : list bool) (l : list A) :
  select mask (map f l) = map f (select mask l).
Proof.
  revert l. induction mask as [|b mask IH]; intros [|x l]; simpl; auto.
  rewrite IH. destruct b; reflexivity.
Qed.

Lemma combine_nil_r {A B : Type} (l : list A) : combine l (@nil B) = [].
Proof. destruct l; reflexivity. Qed.

Lemma select_combine {A B : Type} (mask : list bool) (a : list A)
  (b : list B) :
  select mask (combine a b) = combine (select mask a) (select mask b).
Proof.
  revert a b. induction mask as [|m mask IH]; intros [|x a] [|y b]; simpl;
    auto.
  - now rewrite combine_nil_r.
  - rewrite IH. destruct m; reflexivity.
Qed.

Lemma select_zip_lag (mask : list bool) (rs : list Rental)
  (c1 c2 a1 a2 r1 r2 : list Float.t) :
  zip_lag (select mask rs) (select mask c1) (select mask c2)
          (select mask a1) (select mask a2) (select mask r1) (select mask r2)
  = select mask (zip_lag rs c1 c2 a1 a2 r1 r2).
Proof.
  unfold zip_lag. now rewrite select_map, !select_combine.
Qed.

Lemma select_filter {A : Type} (p : A -> bool) (l : list A) :
  select (map p l) l = filter p l.
Proof.
  induction l as [|x l IH]; simpl; [reflexivity|].
  rewrite IH. reflexivity.
Qed.

Lemma lookup_map (g : Column -> Column) (n : string)
  (cs : list (string * Column)) :
  lookup n (map (fun nc => (fst nc, g (snd nc))) cs)
  = option_map g (lookup n cs).
Proof.
  induction cs as [|[m c] cs IH]; simpl; [reflexivity|].
  destruct (String.eqb m n); [reflexivity | exact IH].
Qed.

Lemma float_column_select (n : string) (mask : list bool) (df : DataFrame) :
  float_column n (select_frame mask df)
  = option_map (select mask) (float_column n df).
Proof.
  unfold float_column, select_frame. cbn [assigned].
  rewrite lookup_map. destruct (lookup n (assigned df)) as [[l|l]|]; reflexivity.
Qed.

Lemma lag_rows_select (mask : list bool) (df : DataFrame) :
  lag_rows (select_frame mask (lag_state df))
  = Some (select mask (lag_tails (rows df))).
Proof.
  unfold lag_rows. rewrite !float_column_select.
  unfold float_column, lag_state. cbn [assigned rows].
  rewrite !lookup_assign. cbn [String.eqb Ascii.eqb Bool.eqb andb option_map].
  cbn [select_frame rows]. rewrite select_zip_lag, zip_lag_shift.
  reflexivity.
Qed.

Lemma count_at_app (f : Rental -> Z) (pre suf : list Rental) (k : nat) :
  count_at f (pre ++ suf) (List.length pre + k) = count_at f suf k.
Proof.
  unfold count_at. rewrite nth_error_app2 by lia.
  replace (List.length pre + k - List.length pre)%nat with k by lia.
  reflexivity.
Qed.

(** Positions in the full sequence and positions in the rest of it. *)
Lemma bad_weather_lag_from (pre suf : list Rental) :
  flat_map (fun i =>
              match nth_error (pre ++ suf) i with
              | Some r =>
                  if 3 <=? weathersit r
                  then [lag_row_at (pre ++ suf) i r] else []
              | None => []
              end)
           (seq (List.length pre) (List.length suf))
  = select (map (fun r => 3 <=? weathersit r) suf) (lag_tails suf).
Proof.
  revert pre. induction suf as [|r t IH]; intros pre; [reflexivity|].
  cbn [List.length seq flat_map map lag_tails select].
  rewrite nth_error_app2 by lia. rewrite Nat.sub_diag. cbn [nth_error].
  assert (Hrow : lag_row_at (pre ++ r :: t) (List.length pre) r
                 = Lag.mk r
                     (count_at cnt t 0) (count_at cnt t 1)
                     (count_at casual t 0) (count_at casual t 1)
                     (count_at registered t 0) (count_at registered t 1)).
  { unfold lag_row_at.
    replace (pre ++ r :: t) with ((pre ++ [r]) ++ t)
      by (rewrite <- app_assoc; reflexivity).
    replace (List.length pre + 1)%nat with (List.length (pre ++ [r]) + 0)%nat
      by (rewrite length_app; simpl; lia).
    replace (List.length pre + 2)%nat with (List.length (pre ++ [r]) + 1)%nat
      by (rewrite length_app; simpl; lia).
    now rewrite !count_at_app. }
  rewrite Hrow.
  specialize (IH (pre ++ [r])).
  rewrite <- app_assoc in IH. cbn [app] in IH.
  rewrite length_app in IH. cbn [List.length] in IH.
  rewrite Nat.add_1_r in IH. rewrite IH.
  destruct (3 <=? weathersit r); reflexivity.
Qed.

Lemma select_lag_tails (rs : list Rental) :
  select (map (fun x => 3 <=? x) (map weathersit rs)) (lag_tails rs)
  = bad_weather_lag rs.
Proof.
  rewrite map_map. symmetry. exact (bad_weather_lag_from [] rs).
Qed.

Lemma bad_weather_lag_base (rs : list Rental) :
  map Lag.base (bad_weather_lag rs)
  = filter (fun r => 3 <=? weathersit r) rs.
Proof.
  rewrite <- select_lag_tails, map_map.
  induction rs as [|r t IH]; [reflexivity|].
  cbn [map lag_tails select filter].
  destruct (3 <=? weathersit r); cbn [map Lag.base]; now rewrite IH.
Qed.

(** C4: the lag helper returns, for every sequence of daily records (sorted
    or not), exactly the records with [weathersit >= 3] in their original
    order, each with the three counts of the records at the positions i+1
    and i+2 of the full sequence, and the missing value where there is no
    such position; on five days of which only the fourth has adverse
    weather, the one row is day 4 with the counts of day 5 as first lag and
    missing second lag. *)
Theorem bad_weather_lag_rows (df : DataFrame) :
  (exists out,
     result create_lag_analysis_df df = Some out /\
     rows out = filter (fun r => 3 <=? weathersit r) (rows df) /\
     lag_rows out = Some (bad_weather_lag (rows df)) /\
     map Lag.base (bad_weather_lag (rows df)) = rows out) /\
  option_map lag_rows (result create_lag_analysis_df five_days)
  = Some (Some [Lag.mk (day_n 4 3 13 23)
                       (Float.of_Z 38) Float.NaN
                       (Float.of_Z 14) Float.NaN
                       (Float.of_Z 24) Float.NaN]).
Proof.
  split; [|reflexivity].
  unfold result. rewrite lag_result. cbn [fst].
  eexists. split; [reflexivity|].
  assert (Hrows : rows (select_frame
                          (map (fun x => 3 <=? x) (map weathersit (rows df)))
                          (lag_state df))
                  = filter (fun r => 3 <=? weathersit r) (rows df)).
  { cbn [select_frame rows lag_state]. rewrite map_map. apply select_filter. }
  split; [exact Hrows|]. split.
  - rewrite lag_rows_select, select_lag_tails. reflexivity.
  - rewrite Hrows. apply bad_weather_lag_base.
Qed.

(* ================================================================== *)
(** ** What the operations do to the frame they are given *)



Lemma lag_state_lookup (df : DataFrame) (n : string) :
  lookup n (assigned (lag_state df))
  = if String.eqb "registered_lag2" n
    then Some (FloatCol (shift (-2) (map registered (rows df))))
    else if String.eqb "registered_lag1" n
    then Some (FloatCol (shift (-1) (map registered (rows df))))
    else if String.eqb "casual_lag2" n
    then Some (FloatCol (shift (-2) (map casual (rows df))))
    else if String.eqb "casual_lag1" n
    then Some (FloatCol (shift (-1) (map casual (rows df))))
    else if String.eqb "cnt_lag2" n
    then Some (FloatCol (shift (-2) (map cnt (rows df))))
    else if String.eqb "cnt_lag1" n
    then Some (FloatCol (shift (-1) (map cnt (rows df))))
    else lookup n (assigned df).
Proof. unfold lag_state. cbn [assigned]. now rewrite !lookup_assign. Qed.


(** ** The store *)









(* ================================================================== *)
(** ** The two monthly aggregations *)

Lemma combine_map_self {A B : Type} (g : A -> B) (l : list A) :
  combine (map g l) l = map (fun a => (g a, a)) l.
Proof. induction l as [|x l IH]; simpl; [reflexivity | now rewrite IH]. Qed.

Lemma period_key_mono (base : Z) (a b : Z * Z) :
  kcmp (period_key base a) (period_key base b) = kcmp a b.
Proof.
  destruct a as [y m], b as [y' m']. unfold period_key. simpl.
  unfold lex_compare. simpl. unfold lex_compare. simpl.
  rewrite Z.add_compare_mono_l.
  destruct (y ?= y') eqn:Ey; [|reflexivity..].
  destruct (m ?= m'); reflexivity.
Qed.

(** C10: when the date of every record agrees with its [yr] (calendar year
    [base + yr]) and its [mnth], the helper's monthly table and the inline
    monthly trend have the same groups in the same order, and each row of
    the helper carries the period, the year index and the mean of [cnt] of
    the corresponding row of the inline trend. *)
Theorem monthly_helper_matches_inline (base : Z) (df : DataFrame) :
  (forall r, In r (rows df) ->
     year (dteday r) = base + yr r /\ month (dteday r) = mnth r) ->
  exists helper inline,
    result create_monthly_trends_df df = Some helper /\
    result monthly_trends df = Some inline /\
    result monthly_trends (final create_monthly_trends_df df) = Some inline /\
    helper = map (helper_row_of base) inline.
Proof.
  intros Hdate. unfold result, final. rewrite helper_result.
  rewrite !monthly_result. cbn [fst snd rows].
  eexists. eexists. split; [reflexivity|]. split; [reflexivity|].
  split; [reflexivity|].
  set (key1 := fun r : Rental => (yr r, mnth r)).
  set (tag := fun r : Rental => (to_period (dteday r), r)).
  set (key2 := fun pr : Period * Rental => (fst pr, yr (snd pr))).
  assert (Hkey : forall r, In r (rows df) ->
                   key2 (tag r) = period_key base (key1 r)).
  { intros r Hr. destruct (Hdate r Hr) as [Hy Hm].
    unfold key2, tag, key1, period_key, to_period. simpl.
    now rewrite Hy, Hm. }
  rewrite map_map, combine_map_self. fold tag.
  unfold groupby.
  assert (Hkeys : map key2 (map tag (rows df))
                  = map (period_key base) (map key1 (rows df))).
  { rewrite !map_map. apply map_ext_in. exact Hkey. }
  rewrite Hkeys.
  rewrite (unique_sorted_map (period_key base) (period_key_mono base)).
  rewrite !map_map. apply map_ext. intros k.
  unfold helper_row_of. cbn [fst snd Monthly.yr Monthly.mnth Monthly.cnt].
  unfold period_key at 1 2. cbn [fst snd].
  f_equal.
  unfold group_of. rewrite filter_map_comm.
  unfold agg_mean. rewrite map_map. cbn [tag snd].
  f_equal. f_equal. apply filter_ext_in. intros r Hr.
  rewrite (Hkey r Hr).
  apply (keqb_map (period_key base) (period_key_mono base)).
Qed.

Lemma monthly_helper_matches_inline_witness :
  exists helper inline,
    result create_monthly_trends_df two_years = Some helper /\
    result monthly_trends two_years = Some inline /\
    result monthly_trends (final create_monthly_trends_df two_years)
    = Some inline /\
    helper = map (helper_row_of 2011) inline.
Proof.
  apply (monthly_helper_matches_inline 2011 two_years).
  intros r Hr. simpl in Hr.
  repeat (destruct Hr as [<- | Hr]; [split; reflexivity|]). contradiction.
Defined.

(* ================================================================== *)
(** * Further properties of the page *)

(** ** The filter *)

Lemma date_key_inj (a b : Date) : date_key a = date_key b -> a = b.
Proof. destruct a, b. unfold date_key. simpl. now intros [= -> -> ->]. Qed.

#[export] Instance Date_KeyOrderLaws : KeyOrderLaws Date.
Proof.
  split.
  - intros a b. change (kcmp a b) with (kcmp (date_key a) (date_key b)).
    rewrite kcmp_eq. split; [apply date_key_inj | now intros ->].
  - intros a b. exact (kcmp_opp (date_key a) (date_key b)).
  - intros a b c. exact (kcmp_trans (date_key a) (date_key b) (date_key c)).
Qed.

Lemma date_compare_eq (a b : Date) : date_compare a b = Eq -> a = b.
Proof. exact (proj1 (kcmp_eq a b)). Qed.

Lemma date_compare_refl (a : Date) : date_compare a a = Eq.
Proof. exact (kcmp_refl a). Qed.

Lemma date_compare_trans (a b c : Date) :
  date_compare a b = Lt -> date_compare b c = Lt -> date_compare a c = Lt.
Proof. exact (kcmp_trans a b c). Qed.

Lemma mask_and_map {A : Type} (p q : A -> bool) (l : list A) :
  mask_and (map p l) (map q l) = map (fun x => p x && q x) l.
Proof.
  unfold mask_and. induction l as [|x l IH]; simpl; [reflexivity|].
  now rewrite IH.
Qed.

Lemma filter_hours_result (lo hi : Date) (more : list Date)
  (selected : list Z) (df : DataFrame) :
  filter_hours (lo :: hi :: more) selected df
  = (Some (select_frame (map (passes lo hi selected) (rows df)) df), df).
Proof.
  unfold filter_hours, bind, getcol, index, self, ret. cbn [nth_error].
  rewrite !map_map, !mask_and_map. reflexivity.
Qed.

(** X1: the filter needs both ends of the date range: with fewer than two
    dates it raises; with two it returns the records inside the range whose
    weather code is selected, in table order; the frame it reads is never
    changed. *)
Theorem filter_hours_selects (date_range : list Date) (selected : list Z)
  (df : DataFrame) :
  final (filter_hours date_range selected) df = df /\
  (List.length date_range < 2 ->
   result (filter_hours date_range selected) df = None)%nat /\
  (forall lo hi more, date_range = lo :: hi :: more ->
     exists out,
       result (filter_hours date_range selected) df = Some out /\
       rows out = filter (passes lo hi selected) (rows df)).
Proof.
  split; [|split].
  - destruct date_range as [|lo [|hi more]]; reflexivity.
  - intros Hlen. destruct date_range as [|lo [|hi more]];
      [reflexivity | reflexivity | simpl in Hlen; lia].
  - intros lo hi more ->. unfold result. rewrite filter_hours_result.
    eexists. split; [reflexivity|]. cbn [select_frame rows].
    apply select_filter.
Qed.

Lemma filter_all {A : Type} (p : A -> bool) (l : list A) :
  (forall x, In x l -> p x = true) -> filter p l = l.
Proof.
  induction l as [|x l IH]; intros Hp; simpl; [reflexivity|].
  rewrite (Hp x) by now left. f_equal. apply IH. intros y Hy. apply Hp.
  now right.
Qed.

Lemma isin_In (values : list Z) (x : Z) : isin values x = true <-> In x values.
Proof.
  unfold isin. rewrite existsb_exists. split.
  - intros [y [Hy E]]. apply Z.eqb_eq in E. now subst.
  - intros Hx. exists x. split; [exact Hx | apply Z.eqb_refl].
Qed.

(** X2: a date range that spans every date of the table, together with a
    selection that holds every weather code of the table (the defaults of
    the page), keeps every record. *)
Theorem filter_hours_keeps_all (lo hi : Date) (selected : list Z)
  (df : DataFrame) :
  (forall r, In r (rows df) ->
     date_leb lo (dteday r) = true /\ date_leb (dteday r) hi = true) ->
  (forall r, In r (rows df) -> In (weathersit r) selected) ->
  exists out,
    result (filter_hours [lo; hi] selected) df = Some out /\
    rows out = rows df.
Proof.
  intros Hd Hw. unfold result. rewrite filter_hours_result.
  eexists. split; [reflexivity|]. cbn [select_frame rows].
  rewrite select_filter. apply filter_all. intros r Hr. unfold passes.
  destruct (Hd r Hr) as [-> ->]. simpl. apply isin_In, Hw, Hr.
Qed.

Lemma filter_hours_keeps_all_witness :
  exists out,
    result (filter_hours [mkDate 2011 1 1; mkDate 2012 12 31] [1; 2; 3; 4])
           two_years = Some out /\
    rows out = rows two_years.
Proof.
  apply filter_hours_keeps_all.
  - intros r Hr. simpl in Hr.
    repeat (destruct Hr as [<- | Hr]; [split; reflexivity|]). contradiction.
  - intros r Hr. simpl in Hr.
    repeat (destruct Hr as [<- | Hr]; [simpl; tauto|]). contradiction.
Defined.

Lemma filter_none {A : Type} (p : A -> bool) (l : list A) :
  (forall x, In x l -> p x = false) -> filter p l = [].
Proof.
  induction l as [|x l IH]; intros Hp; simpl; [reflexivity|].
  rewrite (Hp x) by now left. apply IH. intros y Hy. apply Hp. now right.
Qed.

(** X3: the filter never lets through a record whose weather code is not
    selected or whose date is outside the range; with no weather code
    selected, or with a range whose end is before its start, the filtered
    frame has no record at all. *)
Theorem filter_hours_sound (lo hi : Date) (selected : list Z)
  (df : DataFrame) :
  exists out,
    result (filter_hours [lo; hi] selected) df = Some out /\
    (forall r, In r (rows out) ->
       In r (rows df) /\ In (weathersit r) selected /\
       date_compare lo (dteday r) <> Gt /\ date_compare (dteday r) hi <> Gt) /\
    (selected = [] -> rows out = []) /\
    (date_compare lo hi = Gt -> rows out = []).
Proof.
  unfold result. rewrite filter_hours_result.
  eexists. split; [reflexivity|]. cbn [select_frame rows].
  rewrite select_filter. split; [|split].
  - intros r Hr. apply filter_In in Hr. destruct Hr as [Hin Hp].
    unfold passes in Hp. apply andb_prop in Hp. destruct Hp as [Hp Hs].
    apply andb_prop in Hp. destruct Hp as [Hlo Hhi].
    split; [exact Hin|]. split; [now apply isin_In|].
    unfold date_leb in Hlo, Hhi.
    split; intros E; [rewrite E in Hlo | rewrite E in Hhi]; discriminate.
  - intros ->. apply filter_none. intros r _. unfold passes, isin. simpl.
    apply andb_false_r.
  - intros Hgt. apply filter_none. intros r _. unfold passes.
    destruct (date_leb lo (dteday r)) eqn:Elo; [|reflexivity].
    destruct (date_leb (dteday r) hi) eqn:Ehi; [|reflexivity].
    exfalso. unfold date_leb in Elo, Ehi.
    destruct (date_compare lo (dteday r)) eqn:E1; try discriminate;
      destruct (date_compare (dteday r) hi) eqn:E2; try discriminate.
    + apply date_compare_eq in E1, E2. subst.
      rewrite date_compare_refl in Hgt. discriminate.
    + apply date_compare_eq in E1. subst. congruence.
    + apply date_compare_eq in E2. subst. congruence.
    + pose proof (date_compare_trans _ _ _ E1 E2). congruence.
Qed.

(* ================================================================== *)
(** ** The metrics *)

Section Partition.

Context {K : Type} `{KeyOrderLaws K} {R : Type}.
Variable key : R -> K.
Variable f : R -> Z.





End Partition.






Lemma float_leb_total (a b : Float.t) :
  is_fin a -> is_fin b -> float_leb a b = true \/ float_leb b a = true.
Proof.
  intros [x ->] [y ->]. simpl. rewrite !Qle_bool_iff.
  destruct (Qlt_le_dec x y) as [Hlt|Hle]; [left; now apply Qlt_le_weak|now right].
Qed.

Lemma float_leb_trans (a b c : Float.t) :
  is_fin a -> is_fin b -> is_fin c ->
  float_leb a b = true -> float_leb b c = true -> float_leb a c = true.
Proof.
  intros [x ->] [y ->] [z ->]. simpl. rewrite !Qle_bool_iff. apply Qle_trans.
Qed.

Lemma float_leb_refl (a : Float.t) : is_fin a -> float_leb a a = true.
Proof. intros [x ->]. simpl. apply Qle_bool_iff, Qle_refl. Qed.

Lemma float_max_cases (a b : Float.t) :
  is_fin a -> is_fin b ->
  (float_max a b = a \/ float_max a b = b) /\
  float_leb a (float_max a b) = true /\ float_leb b (float_max a b) = true.
Proof.
  intros Ha Hb. unfold float_max. destruct (float_leb a b) eqn:E.
  - repeat split; auto using float_leb_refl.
  - destruct (float_leb_total a b Ha Hb) as [E'|E']; [congruence|].
    repeat split; auto using float_leb_refl.
Qed.

(** The running maximum of cells that hold numbers is one of them and is
    above all of them. *)
Lemma fold_max_spec (t : list Float.t) (x : Float.t) :
  Forall is_fin (x :: t) ->
  In (fold_left float_max t x) (x :: t) /\
  forall y, In y (x :: t) -> float_leb y (fold_left float_max t x) = true.
Proof.
  revert x. induction t as [|y t IH]; intros x HF.
  - simpl. split; [now left|]. intros y [<-|[]]. apply float_leb_refl.
    now inversion HF.
  - assert (Hx : is_fin x) by now inversion HF.
    assert (Hy : is_fin y) by (inversion HF as [|? ? _ HF']; now inversion HF').
    assert (Ht : Forall is_fin t)
      by (inversion HF as [|? ? _ HF']; now inversion HF').
    destruct (float_max_cases x y Hx Hy) as [Hc [Hlx Hly]].
    assert (Hm : is_fin (float_max x y)) by (destruct Hc as [-> | ->]; assumption).
    destruct (IH (float_max x y) (Forall_cons _ Hm Ht)) as [Hin Hub].
    cbn [fold_left]. split.
    + destruct Hin as [E|Hin]; [|right; right; exact Hin].
      rewrite <- E. destruct Hc as [-> | ->]; [now left | right; now left].
    + assert (Hfin : is_fin (fold_left float_max t (float_max x y))).
      { destruct Hin as [<-|Hin]; [exact Hm|].
        rewrite Forall_forall in Ht. now apply Ht. }
      intros z [<-|[<-|Hz]].
      * apply (float_leb_trans x (float_max x y) _ Hx Hm Hfin Hlx).
        apply Hub. now left.
      * apply (float_leb_trans y (float_max x y) _ Hy Hm Hfin Hly).
        apply Hub. now left.
      * apply Hub. now right.
Qed.

Lemma dropna_fin (l : list Float.t) : Forall is_fin l -> Float.dropna l = l.
Proof.
  unfold Float.dropna. induction 1 as [|a l [q ->] HF IH]; simpl;
    [reflexivity | now rewrite IH].
Qed.

(** X5: the peak-hour figure is the largest [cnt] cell of the hourly
    pattern: it is the cell of one of its rows and no row is above it; on a
    frame without records it is the missing value. *)
Theorem peak_hour_is_max_of_hourly_pattern (df : DataFrame) :
  exists hp peak,
    result create_hourly_patterns_df df = Some hp /\
    result peak_hour_rides df = Some peak /\
    (rows df = [] -> peak = Float.NaN) /\
    (rows df <> [] ->
     (exists row, In row hp /\ Hourly.cnt row = peak) /\
     (forall row, In row hp -> float_leb (Hourly.cnt row) peak = true)).
Proof.
  destruct (result create_hourly_patterns_df df) as [hp|] eqn:E;
    [|unfold result in E; rewrite hourly_result in E; discriminate].
  exists hp. eexists. split; [reflexivity|]. split; [reflexivity|]. split.
  - intros ->. reflexivity.
  - intros Hne.
    assert (Hs : map (fun kg => agg_mean cnt (snd kg)) (groupby hr (rows df))
                 = map Hourly.cnt hp).
    { unfold result in E. rewrite hourly_result in E. cbn [fst] in E.
      injection E as <-. rewrite map_map. reflexivity. }
    rewrite Hs.
    assert (HF : Forall is_fin (map Hourly.cnt hp)).
    { apply Forall_forall. intros c Hc. apply in_map_iff in Hc.
      destruct Hc as [row [<- Hrow]].
      destruct (hourly_row df hp row E Hrow) as [_ [_ [_ ->]]].
      eexists. reflexivity. }
    assert (Hhp : hp <> []).
    { intros ->. pose proof (hourly_keys df [] E) as Hk. simpl in Hk.
      destruct (rows df) as [|r rs]; [congruence|].
      assert (Hin : In (hr r) (unique_sorted (map hr (r :: rs))))
        by (apply unique_sorted_In; now left).
      rewrite <- Hk in Hin. exact Hin. }
    unfold series_max. rewrite (dropna_fin _ HF).
    destruct hp as [|r0 hp']; [congruence|]. cbn [map] in *.
    destruct (fold_max_spec _ _ HF) as [Hin Hub]. split.
    + change (Hourly.cnt r0 :: map Hourly.cnt hp')
        with (map Hourly.cnt (r0 :: hp')) in Hin.
      apply in_map_iff in Hin. destruct Hin as [row [Hc Hrow]].
      exists row. split; [exact Hrow | exact Hc].
    + intros row Hrow. apply Hub.
      change (In (Hourly.cnt row) (map Hourly.cnt (r0 :: hp'))).
      apply in_map, Hrow.
Qed.

(* ================================================================== *)
(** ** The annotations of the hourly chart *)

(** A strictly ascending list of integers that starts no lower than [a] and
    holds [a], [a+1], ..., holds them at its first positions. *)
Lemma sorted_initial (k : nat) :
  forall (l : list Z) (a : Z) (n : nat),
    StronglySorted Z.lt l ->
    (forall x, In x l -> a <= x) ->
    (forall i, a <= i < a + Z.of_nat n -> In i l) ->
    (k < n)%nat ->
    nth_error l k = Some (a + Z.of_nat k).
Proof.
  induction k as [|k IH]; intros l a n HS Hlo Hall Hk.
  - destruct l as [|h t].
    + exfalso. apply (Hall a). lia.
    + simpl. f_equal. apply StronglySorted_inv in HS. destruct HS as [_ HF].
      rewrite Forall_forall in HF.
      destruct (Hall a ltac:(lia)) as [E|Hin]; [lia|].
      specialize (HF a Hin). specialize (Hlo h (or_introl eq_refl)). lia.
  - destruct l as [|h t].
    + exfalso. apply (Hall a). lia.
    + apply StronglySorted_inv in HS. destruct HS as [HS HF].
      rewrite Forall_forall in HF.
      assert (Eh : h = a).
      { destruct (Hall a ltac:(lia)) as [E|Hin]; [exact E|].
        specialize (HF a Hin). specialize (Hlo h (or_introl eq_refl)). lia. }
      subst h. cbn [nth_error].
      rewrite (IH t (a + 1) (n - 1)%nat); [f_equal; lia | exact HS | | | lia].
      * intros x Hx. specialize (HF x Hx). lia.
      * intros i Hi. destruct (Hall i ltac:(lia)) as [E|Hin]; [lia | exact Hin].
Qed.

Lemma hourly_annotations_unfold (df : DataFrame) (hp : list Hourly.row) :
  result create_hourly_patterns_df df = Some hp ->
  result hourly_annotations df
  = match nth_error hp 8, nth_error hp 17 with
    | Some r8, Some r17 => Some (Hourly.registered r8, Hourly.registered r17)
    | _, _ => None
    end.
Proof.
  unfold result. rewrite hourly_result. cbn [fst]. intros [= <-].
  unfold hourly_annotations, bind. rewrite hourly_result.
  unfold loc, ret.
  change (8 <? 0) with false. change (17 <? 0) with false.
  change (Z.to_nat 8) with 8%nat. change (Z.to_nat 17) with 17%nat.
  cbv iota.
  destruct (nth_error _ 8); [|reflexivity].
  destruct (nth_error _ 17); reflexivity.
Qed.

Lemma hourly_length (df : DataFrame) (hp : list Hourly.row) :
  result create_hourly_patterns_df df = Some hp ->
  List.length hp = distinct_hours df.
Proof.
  intros E. unfold distinct_hours. rewrite <- (hourly_keys df hp E).
  now rewrite length_map.
Qed.

(** X6: the annotations of the hourly chart are read at the index labels 8
    and 17 of the hourly pattern, so they raise exactly when the frame has
    fewer than 18 distinct hours. *)
Theorem hourly_annotations_need_18_hours (df : DataFrame) :
  ((distinct_hours df < 18)%nat -> result hourly_annotations df = None) /\
  ((18 <= distinct_hours df)%nat ->
   exists a b, result hourly_annotations df = Some (a, b)).
Proof.
  destruct (result create_hourly_patterns_df df) as [hp|] eqn:E;
    [|unfold result in E; rewrite hourly_result in E; discriminate].
  rewrite (hourly_annotations_unfold df hp E), <- (hourly_length df hp E).
  split; intros Hlen.
  - destruct (nth_error hp 8); [|reflexivity].
    destruct (nth_error hp 17) eqn:E17; [|reflexivity].
    assert (nth_error hp 17 <> None) by congruence.
    apply nth_error_Some in H. lia.
  - destruct (nth_error hp 8) eqn:E8.
    + destruct (nth_error hp 17) eqn:E17; [eexists; eexists; reflexivity|].
      apply nth_error_None in E17. lia.
    + apply nth_error_None in E8. lia.
Qed.

Lemma hourly_nth (df : DataFrame) (hp : list Hourly.row) (k : nat)
  (row : Hourly.row) :
  result create_hourly_patterns_df df = Some hp ->
  nth_error hp k = Some row ->
  nth_error (unique_sorted (map hr (rows df))) k = Some (Hourly.hr row) /\
  Hourly.registered row = registered_at (Hourly.hr row) df.
Proof.
  intros E Hn. split.
  - rewrite <- (hourly_keys df hp E). now apply map_nth_error.
  - apply nth_error_In in Hn.
    destruct (hourly_row df hp row E Hn) as [_ [_ [Hr _]]]. exact Hr.
Qed.

(** X7: when no hour is negative and each of the hours 0..17 has a record,
    the two annotations are the registered means of the hours 8 and 17. *)
Theorem hourly_annotations_of_full_day (df : DataFrame) :
  (forall r, In r (rows df) -> 0 <= hr r) ->
  (forall h, 0 <= h <= 17 -> exists r, In r (rows df) /\ hr r = h) ->
  result hourly_annotations df
  = Some (registered_at 8 df, registered_at 17 df).
Proof.
  intros Hlo Hall.
  destruct (result create_hourly_patterns_df df) as [hp|] eqn:E;
    [|unfold result in E; rewrite hourly_result in E; discriminate].
  rewrite (hourly_annotations_unfold df hp E).
  assert (Hpos : forall k, (k < 18)%nat ->
            nth_error (unique_sorted (map hr (rows df))) k
            = Some (0 + Z.of_nat k)).
  { intros k Hk. apply (sorted_initial k _ 0 18).
    - exact (unique_sorted_sorted (map hr (rows df))).
    - intros x Hx. apply unique_sorted_In, in_map_iff in Hx.
      destruct Hx as [r [<- Hr]]. now apply Hlo.
    - intros i Hi. apply unique_sorted_In, in_map_iff.
      destruct (Hall i ltac:(lia)) as [r [Hr Eh]]. now exists r.
    - exact Hk. }
  assert (Hrow : forall k, (k < 18)%nat ->
            exists row, nth_error hp k = Some row /\
                        Hourly.hr row = Z.of_nat k).
  { intros k Hk. specialize (Hpos k Hk).
    rewrite <- (hourly_keys df hp E), nth_error_map in Hpos.
    destruct (nth_error hp k) as [row|]; [|discriminate].
    exists row. split; [reflexivity|]. simpl in Hpos. injection Hpos as ->. lia. }
  destruct (Hrow 8%nat ltac:(lia)) as [r8 [E8 H8]].
  destruct (Hrow 17%nat ltac:(lia)) as [r17 [E17 H17]].
  rewrite E8, E17.
  destruct (hourly_nth df hp _ _ E E8) as [_ ->].
  destruct (hourly_nth df hp _ _ E E17) as [_ ->].
  now rewrite H8, H17.
Qed.

(** X8: the label 8 is a position, not an hour: when no record has hour 8
    and the annotations do not raise, the figure shown as the 8 o'clock
    peak is the registered mean of another hour of the frame. *)
Theorem hourly_annotation_of_missing_hour (df : DataFrame)
  (a b : Float.t) :
  (forall r, In r (rows df) -> hr r <> 8) ->
  result hourly_annotations df = Some (a, b) ->
  exists h r, h <> 8 /\ In r (rows df) /\ hr r = h /\ a = registered_at h df.
Proof.
  intros Hno Hres.
  destruct (result create_hourly_patterns_df df) as [hp|] eqn:E;
    [|unfold result in E; rewrite hourly_result in E; discriminate].
  rewrite (hourly_annotations_unfold df hp E) in Hres.
  destruct (nth_error hp 8) as [r8|] eqn:E8; [|discriminate].
  destruct (nth_error hp 17) as [r17|]; [|discriminate].
  injection Hres as <- _.
  destruct (hourly_nth df hp _ _ E E8) as [Hk Hv].
  apply nth_error_In, unique_sorted_In, in_map_iff in Hk.
  destruct Hk as [r [Eh Hr]].
  exists (Hourly.hr r8), r. repeat split; auto.
  rewrite <- Eh. now apply Hno.
Qed.

(* ================================================================== *)
(** ** The annotations of the weekday chart *)

Lemma unique_sorted_const (k : Z) (l : list Z) :
  (forall x, In x l -> x = k) ->
  unique_sorted l = match l with [] => [] | _ :: _ => [k] end.
Proof.
  induction l as [|x l IH]; intros Hk; [reflexivity|].
  unfold unique_sorted in *. cbn [fold_right].
  rewrite IH by (intros y Hy; apply Hk; now right).
  rewrite (Hk x) by now left.
  destruct l; simpl; [reflexivity|]. now rewrite Z.compare_refl.
Qed.

(** The keys of a grouping that equal a given key. *)
Lemma filter_key (k0 : Z) (l : list Z) :
  filter (fun k => k =? k0) (unique_sorted l)
  = if existsb (fun k => k =? k0) l then [k0] else [].
Proof.
  rewrite filter_unique_sorted.
  rewrite (unique_sorted_const k0)
    by (intros x Hx; apply filter_In in Hx; now apply Z.eqb_eq).
  induction l as [|x l IH]; simpl; [reflexivity|].
  destruct (x =? k0); [reflexivity | exact IH].
Qed.

Lemma label_is_sunday (k : Z) :
  label_is "Sunday" (dict_get k day_names) = (k =? 0).
Proof.
  unfold day_names, dict_get. rewrite (Z.eqb_sym k 0).
  repeat match goal with
         | |- context [if ?c =? k then _ else _] =>
             destruct (Z.eqb_spec c k) as [<-|?]; [reflexivity|]
         end.
  destruct (Z.eqb_spec 0 k); [contradiction | reflexivity].
Qed.

Lemma label_is_friday (k : Z) :
  label_is "Friday" (dict_get k day_names) = (k =? 5).
Proof.
  unfold day_names, dict_get. rewrite (Z.eqb_sym k 5).
  repeat match goal with
         | |- context [if ?c =? k then _ else _] =>
             destruct (Z.eqb_spec c k) as [<-|?]; [reflexivity|]
         end.
  destruct (Z.eqb_spec 5 k); [contradiction | reflexivity].
Qed.

Lemma existsb_map_comm {A B : Type} (p : B -> bool) (f : A -> B)
  (l : list A) :
  existsb p (map f l) = existsb (fun a => p (f a)) l.
Proof. induction l as [|x l IH]; simpl; [reflexivity | now rewrite IH]. Qed.

(** The cells of the rows of a grouped table that a test selects, when the
    test amounts to a test on the key. *)
Lemma cells_of_key {Row : Type} (key : Rental -> Z)
  (mk : Z * list Rental -> Row) (test : Row -> bool)
  (field : Row -> Float.t) (raw : Rental -> Z) (d : Z) (rs : list Rental) :
  (forall kg, test (mk kg) = (fst kg =? d)) ->
  (forall kg, field (mk kg) = agg_mean raw (snd kg)) ->
  map field (filter test (map mk (groupby key rs)))
  = if existsb (fun r => key r =? d) rs
    then [mean_cell (map raw (filter (fun r => key r =? d) rs))] else [].
Proof.
  intros Ht Hf. rewrite filter_map_comm.
  rewrite (filter_ext _ (fun kg => fst kg =? d)) by (intros kg; apply Ht).
  unfold groupby. rewrite filter_map_comm. cbn [fst].
  rewrite filter_key, existsb_map_comm.
  destruct (existsb (fun r => key r =? d) rs) eqn:Ex; [|reflexivity].
  cbn [map]. rewrite Hf. cbn [snd]. f_equal.
  rewrite agg_mean_is_mean.
  - now rewrite group_of_Z.
  - apply existsb_exists in Ex. destruct Ex as [r [Hr Ed]].
    intros E. assert (Hin : In r (group_of key d rs)).
    { apply group_of_In. split; [exact Hr | now apply Z.eqb_eq]. }
    rewrite E in Hin. exact Hin.
Qed.

(** X9: the annotations of the weekday chart read the first row labelled
    Sunday and the first row labelled Friday: they are the casual mean of
    weekday 0 and the registered mean of weekday 5, and they raise when the
    frame has no record of weekday 0 or none of weekday 5. *)
Theorem daily_annotations_need_sunday_and_friday (df : DataFrame) :
  result daily_annotations df
  = if existsb (fun r => weekday r =? 0) (rows df)
       && existsb (fun r => weekday r =? 5) (rows df)
    then Some (weekday_mean casual 0 df, weekday_mean registered 5 df)
    else None.
Proof.
  unfold result, daily_annotations, bind. rewrite daily_result.
  rewrite (cells_of_key weekday _ _ Daily.casual casual 0)
    by (intros kg; first [apply label_is_sunday | reflexivity]).
  rewrite (cells_of_key weekday _ _ Daily.registered registered 5)
    by (intros kg; first [apply label_is_friday | reflexivity]).
  unfold index, ret, weekday_mean.
  destruct (existsb (fun r => weekday r =? 0) (rows df)); [|reflexivity].
  destruct (existsb (fun r => weekday r =? 5) (rows df)); reflexivity.
Qed.

(* ================================================================== *)
(** ** The weather section *)

Lemma unique_sorted_head (l : list Z) :
  l <> [] ->
  exists k0 ks,
    unique_sorted l = k0 :: ks /\ In k0 l /\ forall x, In x l -> k0 <= x.
Proof.
  intros Hne. destruct (unique_sorted l) as [|k0 ks] eqn:E.
  - destruct l as [|x l]; [congruence|]. exfalso.
    assert (Hin : In x (unique_sorted (x :: l)))
      by (apply unique_sorted_In; now left).
    rewrite E in Hin. exact Hin.
  - exists k0, ks. split; [reflexivity|].
    pose proof (unique_sorted_sorted l) as HS. rewrite E in HS.
    apply StronglySorted_inv in HS. destruct HS as [_ HF].
    rewrite Forall_forall in HF. split.
    + apply unique_sorted_In. rewrite E. now left.
    + intros x Hx. apply unique_sorted_In in Hx. rewrite E in Hx.
      destruct Hx as [<-|Hx]; [apply Z.le_refl|].
      specialize (HF x Hx). change (Z.compare k0 x = Lt) in HF.
      apply Z.compare_lt_iff in HF. apply Z.lt_le_incl, HF.
Qed.

(** X10: the weather section leaves the frame as it was; its inline table
    has the keys and the means of the helper's table (only the labels are
    its own); the two baselines are the casual and the registered mean of
    the lowest weather code of the frame; and on a frame without records
    reading them raises. *)
Theorem weather_section_baseline (df : DataFrame) :
  final weather_section df = df /\
  (rows df = [] -> result weather_section df = None) /\
  (rows df <> [] ->
   exists wi helper w0,
     result weather_section df
     = Some (wi, weather_mean casual w0 df, weather_mean registered w0 df) /\
     (exists r, In r (rows df) /\ weathersit r = w0) /\
     (forall r, In r (rows df) -> w0 <= weathersit r) /\
     result create_weather_impact_df df = Some helper /\
     map inline_figures wi = map weather_figures helper).
Proof.
  unfold final, result, weather_section, bind. rewrite weather_result.
  unfold self, loc, ret. change (0 <? 0) with false.
  change (Z.to_nat 0) with 0%nat. cbv iota. unfold groupby.
  split; [|split].
  - destruct (unique_sorted (map weathersit (rows df))); reflexivity.
  - intros ->. reflexivity.
  - intros Hne.
    destruct (unique_sorted_head (map weathersit (rows df)))
      as [w0 [ks [E [Hin Hmin]]]].
    { destruct (rows df); [congruence | discriminate]. }
    rewrite E. cbn [map nth_error fst snd].
    cbn [WeatherInline.casual WeatherInline.registered].
    apply in_map_iff in Hin. destruct Hin as [r0 [Hw Hr0]].
    assert (Hg : group_of weathersit w0 (rows df) <> []).
    { intros Eg. assert (Hin : In r0 (group_of weathersit w0 (rows df)))
        by (apply group_of_In; auto).
      rewrite Eg in Hin. exact Hin. }
    eexists. eexists. exists w0. split; [|split; [|split; [|split]]].
    + rewrite !agg_mean_is_mean by exact Hg. rewrite group_of_Z. reflexivity.
    + exists r0. auto.
    + intros r Hr. apply Hmin, in_map, Hr.
    + reflexivity.
    + rewrite !agg_mean_is_mean by exact Hg. rewrite group_of_Z.
      cbn [map]. f_equal. rewrite !map_map. reflexivity.
Qed.

(* ================================================================== *)
(** ** Calling the helpers again *)

Lemma assign_bound (n : string) (c : Column) (cs : list (string * Column)) :
  lookup n cs = Some c -> assign n c cs = cs.
Proof.
  induction cs as [|[m d] cs IH]; simpl; [discriminate|].
  destruct (String.eqb_spec m n) as [->|Hne].
  - now intros [= ->].
  - intros Hl. now rewrite IH.
Qed.

Lemma lag_state_twice (df : DataFrame) : lag_state (lag_state df) = lag_state df.
Proof.
  unfold lag_state at 1. change (rows (lag_state df)) with (rows df).
  repeat rewrite assign_bound
    by (rewrite ?lookup_assign, lag_state_lookup; reflexivity).
  reflexivity.
Qed.

(** X11: the two helpers that write to their frame may be called again on
    the frame they have written to: the second call returns the table of
    the first and leaves the frame as the first call left it. *)
Theorem helpers_can_be_called_again (df : DataFrame) :
  create_lag_analysis_df (final create_lag_analysis_df df)
  = (result create_lag_analysis_df df, final create_lag_analysis_df df) /\
  create_monthly_trends_df (final create_monthly_trends_df df)
  = (result create_monthly_trends_df df, final create_monthly_trends_df df).
Proof.
  split.
  - unfold final, result. rewrite !lag_result. cbn [fst snd].
    rewrite lag_state_twice. reflexivity.
  - unfold final, result. rewrite !helper_result. cbn [fst snd rows assigned].
    rewrite assign_bound by (now rewrite lookup_assign, String.eqb_refl).
    reflexivity.
Qed.

(* ================================================================== *)
(** ** The end of the daily sequence *)

Lemma select_lag_tails_last (pre : list Rental) (r : Rental) :
  (forall x, In x pre -> weathersit x < 3) -> 3 <= weathersit r ->
  select (map (fun x => 3 <=? x) (map weathersit (pre ++ [r])))
         (lag_tails (pre ++ [r]))
  = [lag_row_at_end r].
Proof.
  intros Hpre Hr. induction pre as [|x pre IH].
  - simpl. destruct (Z.leb_spec 3 (weathersit r)); [reflexivity | lia].
  - cbn [app map lag_tails select].
    destruct (Z.leb_spec 3 (weathersit x)) as [Hx|_].
    + specialize (Hpre x (or_introl eq_refl)). lia.
    + apply IH. intros y Hy. apply Hpre. now right.
Qed.

(** X12: when the only day of adverse weather is the last day of the
    sequence, the lag table is the one row of that day and all its lag
    cells are missing. *)
Theorem bad_weather_on_last_day (pre : list Rental) (r : Rental)
  (cols : list (string * Column)) :
  (forall x, In x pre -> weathersit x < 3) ->
  3 <= weathersit r ->
  exists out,
    result create_lag_analysis_df {| rows := pre ++ [r]; assigned := cols |}
    = Some out /\
    rows out = [r] /\
    lag_rows out = Some [lag_row_at_end r].
Proof.
  intros Hpre Hr. unfold result. rewrite lag_result. cbn [fst].
  eexists. split; [reflexivity|]. split.
  - cbn [select_frame rows lag_state]. rewrite map_map, select_filter.
    rewrite filter_app, filter_none.
    + simpl. destruct (Z.leb_spec 3 (weathersit r)); [reflexivity | lia].
    + intros x Hx. specialize (Hpre x Hx). apply Z.leb_gt. exact Hpre.
  - rewrite lag_rows_select. cbn [rows].
    now rewrite select_lag_tails_last.
Qed.

Lemma bad_weather_on_last_day_witness :
  exists out,
    result create_lag_analysis_df
           {| rows := [day_n 1 1 10 20; day_n 2 2 11 21] ++ [day_n 3 3 5 6];
              assigned := [] |}
    = Some out /\
    rows out = [day_n 3 3 5 6] /\
    lag_rows out = Some [lag_row_at_end (day_n 3 3 5 6)].
Proof.
  apply bad_weather_on_last_day.
  - intros x Hx. simpl in Hx.
    repeat (destruct Hx as [<- | Hx]; [simpl; lia|]). contradiction.
  - simpl. lia.
Defined.

(* ================================================================== *)
(** ** The size of the hourly pattern *)

Lemma sorted_bounded_length (l : list Z) :
  StronglySorted Z.lt l ->
  forall a b, a <= b -> (forall x, In x l -> a <= x < b) ->
  Z.of_nat (List.length l) <= b - a.
Proof.
  induction 1 as [|h t HS IH HF]; intros a b Hab Hin.
  - simpl. lia.
  - rewrite Forall_forall in HF.
    pose proof (Hin h (or_introl eq_refl)) as Hh.
    assert (Ht : Z.of_nat (List.length t) <= b - (h + 1)).
    { apply IH; [lia|]. intros x Hx. specialize (HF x Hx).
      specialize (Hin x (or_intror Hx)). lia. }
    cbn [List.length]. lia.
Qed.

(** X13: when every hour of the frame is one of 0..23, the hourly pattern
    has at most 24 rows and every row is an hour of 0..23. *)
Theorem hourly_pattern_at_most_24_rows (df : DataFrame) :
  (forall r, In r (rows df) -> 0 <= hr r <= 23) ->
  exists hp,
    result create_hourly_patterns_df df = Some hp /\
    (List.length hp <= 24)%nat /\
    (forall row, In row hp -> 0 <= Hourly.hr row <= 23).
Proof.
  intros Hdom.
  destruct (result create_hourly_patterns_df df) as [hp|] eqn:E;
    [|unfold result in E; rewrite hourly_result in E; discriminate].
  exists hp. split; [reflexivity|].
  pose proof (hourly_keys df hp E) as Hk.
  assert (Hrange : forall x, In x (unique_sorted (map hr (rows df))) ->
                     0 <= x < 24).
  { intros x Hx. apply unique_sorted_In, in_map_iff in Hx.
    destruct Hx as [r [<- Hr]]. specialize (Hdom r Hr). lia. }
  split.
  - pose proof (sorted_bounded_length _
                  (unique_sorted_sorted (map hr (rows df))) 0 24
                  ltac:(lia) Hrange) as Hlen.
    rewrite <- Hk, length_map in Hlen. lia.
  - intros row Hrow. assert (Hin : In (Hourly.hr row) (map Hourly.hr hp))
      by now apply in_map.
    rewrite Hk in Hin. specialize (Hrange _ Hin). lia.
Qed.

Lemma hourly_pattern_at_most_24_rows_witness :
  exists hp,
    result create_hourly_patterns_df hourly_sample = Some hp /\
    (List.length hp <= 24)%nat /\
    (forall row, In row hp -> 0 <= Hourly.hr row <= 23).
Proof.
  apply hourly_pattern_at_most_24_rows.
  intros r Hr. simpl in Hr.
  repeat (destruct Hr as [<- | Hr]; [simpl; lia|]). contradiction.
Defined.

(* ================================================================== *)
(** ** A frame without records *)

(** X14: on a frame without records (for instance when the filter lets
    nothing through) every aggregation returns an empty table without
    raising, the total is 0, the two averages and the two growth figures
    are the missing value, and the three places of the page that read a row
    of a pattern raise. *)
Theorem page_on_no_records (cols : list (string * Column)) :
  let df := no_records cols in
  result create_hourly_patterns_df df = Some [] /\
  result create_daily_patterns_df df = Some [] /\
  result create_weather_impact_df df = Some [] /\
  result create_monthly_trends_df df = Some [] /\
  (exists out, result create_lag_analysis_df df = Some out /\
               rows out = [] /\ lag_rows out = Some []) /\
  result monthly_section df
  = Some ([], [("casual"%string, Float.NaN);
               ("registered"%string, Float.NaN)]) /\
  result total_rides df = Some 0 /\
  result avg_daily_rides df = Some Float.NaN /\
  result peak_hour_rides df = Some Float.NaN /\
  result hourly_annotations df = None /\
  result daily_annotations df = None /\
  result weather_section df = None.
Proof.
  intros df. subst df. unfold no_records.
  split; [reflexivity|]. split; [reflexivity|]. split; [reflexivity|].
  split; [unfold result; rewrite helper_result; reflexivity|].
  split.
  - unfold result. rewrite lag_result. cbn [fst].
    eexists. split; [reflexivity|]. split; [reflexivity|].
    now rewrite lag_rows_select.
  - split.
    + unfold result, monthly_section, bind. rewrite helper_result.
      reflexivity.
    + repeat split; reflexivity.
Qed.

Lemma hourly_annotations_of_full_day_witness :
  result hourly_annotations full_day
  = Some (registered_at 8 full_day, registered_at 17 full_day).
Proof.
  apply (hourly_annotations_of_full_day full_day).
  - intros r Hr. apply in_map_iff in Hr. destruct Hr as [h [<- _]].
    simpl. lia.
  - intros h Hh. exists (hour_n (Z.to_nat h)). split.
    + apply in_map, in_seq. lia.
    + simpl. lia.
Defined.

Lemma hourly_annotation_of_missing_hour_witness :
  exists h r,
    h <> 8 /\ In r (rows day_without_8) /\ hr r = h /\
    registered_at 9 day_without_8 = registered_at h day_without_8.
Proof.
  apply (hourly_annotation_of_missing_hour day_without_8
           (registered_at 9 day_without_8) (registered_at 18 day_without_8)).
  - intros r Hr. apply in_map_iff in Hr. destruct Hr as [h [<- Hh]].
    apply in_app_or in Hh. rewrite !in_seq in Hh. simpl. lia.
  - vm_compute. reflexivity.
Defined.

(* ================================================================== *)
(** ** The labels of the monthly chart *)

(** X15: on rows whose month is one of 1..12 and whose year index is 0 or
    1, the label of the monthly chart tells the rows apart: two rows with
    the same label are rows of the same month of the same year. *)
Theorem periode_tells_months_apart (a b : Monthly.row) :
  1 <= Monthly.mnth a <= 12 -> 0 <= Monthly.yr a <= 1 ->
  1 <= Monthly.mnth b <= 12 -> 0 <= Monthly.yr b <= 1 ->
  periode a = periode b ->
  Monthly.yr a = Monthly.yr b /\ Monthly.mnth a = Monthly.mnth b.
Proof.
  destruct a as [ya ma ca ra ta], b as [yb mb cb rb tb].
  unfold periode. cbn [Monthly.yr Monthly.mnth].
  intros Hma Hya Hmb Hyb.
  assert (Ea : ya = 0 \/ ya = 1) by lia.
  assert (Eb : yb = 0 \/ yb = 1) by lia.
  assert (Fa : ma = 1 \/ ma = 2 \/ ma = 3 \/ ma = 4 \/ ma = 5 \/ ma = 6 \/
               ma = 7 \/ ma = 8 \/ ma = 9 \/ ma = 10 \/ ma = 11 \/ ma = 12)
    by lia.
  assert (Fb : mb = 1 \/ mb = 2 \/ mb = 3 \/ mb = 4 \/ mb = 5 \/ mb = 6 \/
               mb = 7 \/ mb = 8 \/ mb = 9 \/ mb = 10 \/ mb = 11 \/ mb = 12)
    by lia.
  clear Hma Hya Hmb Hyb.
  destruct Ea as [-> | ->], Eb as [-> | ->];
    repeat (destruct Fa as [-> | Fa]); try subst ma;
    repeat (destruct Fb as [-> | Fb]); try subst mb;
    intros E; first [split; reflexivity | vm_compute in E; discriminate E].
Qed.

Lemma periode_tells_months_apart_witness :
  Monthly.yr (Monthly.mk 1 6 Float.NaN Float.NaN Float.NaN)
  = Monthly.yr (Monthly.mk 1 6 (Float.of_Z 1) Float.NaN Float.NaN) /\
  Monthly.mnth (Monthly.mk 1 6 Float.NaN Float.NaN Float.NaN)
  = Monthly.mnth (Monthly.mk 1 6 (Float.of_Z 1) Float.NaN Float.NaN).
Proof.
  apply periode_tells_months_apart; simpl; try lia. reflexivity.
Defined.

